(** * PSU interpreter: a shallow embedding of [interpreter/main.py]

    The development follows the source file top-down: the host-language
    string primitives the interpreter relies on, the hand-compiled regular
    expressions of the command grammar, the attribute parser, variable
    interpolation, the HTML emitter, the block-stack closing pass, the
    command dispatcher and the driver [execute_psu_script].  The theorems
    about the interpreter come after all definitions.

    Characters are 8-bit [ascii]; the classification functions agree with
    Python's on code points 0..127.  Code points above 127 are neither word
    nor space characters here. *)

From Stdlib Require Import ZArith Ascii String DecimalString Lia.
From stdpp Require Import gmap strings.

Local Open Scope Z_scope.
Local Open Scope nat_scope.

(* ===================================================================== *)
(** * Host string primitives *)
(* ===================================================================== *)

Module Py.

(** The double quote and the newline, as one-character strings. *)
Definition dq_char : ascii := ascii_of_nat 34.
Definition nl_char : ascii := ascii_of_nat 10.
Definition dq : string := String dq_char "".
Definition nl : string := String nl_char "".

(** [quoted s] is [s] between double quotes. *)
Definition quoted (s : string) : string := dq +:+ s +:+ dq.

Definition in_range (lo hi : nat) (c : ascii) : bool :=
  let n := nat_of_ascii c in (lo <=? n) && (n <=? hi).

(** [\d] *)
Definition is_digit (c : ascii) : bool := in_range 48 57 c.

(** [\w] : letters, digits and the underscore. *)
Definition is_word (c : ascii) : bool :=
  in_range 97 122 c || in_range 65 90 c || is_digit c
  || Nat.eqb (nat_of_ascii c) 95.

(** [\s] and [str.isspace]: tab, line feed, vertical tab, form feed,
    carriage return, the four separators 28..31 and the space. *)
Definition is_space (c : ascii) : bool :=
  in_range 9 13 c || in_range 28 32 c.

Definition is_char (x : ascii) (c : ascii) : bool := Ascii.eqb x c.

(** [str.lower] on one character. *)
Definition lower_char (c : ascii) : ascii :=
  if in_range 65 90 c then ascii_of_nat (nat_of_ascii c + 32) else c.

Fixpoint lower (s : string) : string :=
  match s with
  | EmptyString => EmptyString
  | String c s' => String (lower_char c) (lower s')
  end.

(** The longest prefix of characters satisfying [p], and what follows:
    a greedy [p*]. *)
Fixpoint span (p : ascii -> bool) (s : string) : string * string :=
  match s with
  | EmptyString => (EmptyString, EmptyString)
  | String c s' =>
      if p c then let '(a, b) := span p s' in (String c a, b)
      else (EmptyString, s)
  end.

(** Every character of [s] satisfies [p]. *)
Fixpoint all_chars (p : ascii -> bool) (s : string) : bool :=
  match s with
  | EmptyString => true
  | String c s' => p c && all_chars p s'
  end.

(** [s.lstrip(chars)] for the character class [p]. *)
Definition lstrip_by (p : ascii -> bool) (s : string) : string :=
  snd (span p s).

(** [s.rstrip(chars)] for the character class [p]. *)
Fixpoint rstrip_by (p : ascii -> bool) (s : string) : string :=
  match s with
  | EmptyString => EmptyString
  | String c s' =>
      match rstrip_by p s' with
      | EmptyString => if p c then EmptyString else String c EmptyString
      | r => String c r
      end
  end.

Definition strip_by (p : ascii -> bool) (s : string) : string :=
  lstrip_by p (rstrip_by p s).

Definition lstrip : string -> string := lstrip_by is_space.
Definition rstrip : string -> string := rstrip_by is_space.
Definition strip : string -> string := strip_by is_space.

Definition startswith (pre s : string) : bool := String.prefix pre s.

Fixpoint endswith (suf s : string) : bool :=
  String.eqb suf s ||
  match s with
  | EmptyString => false
  | String _ s' => endswith suf s'
  end.

(** [sub in s] *)
Fixpoint contains (sub s : string) : bool :=
  String.prefix sub s ||
  match s with
  | EmptyString => false
  | String _ s' => contains sub s'
  end.

(** [s.split(sep, 1)] when [sep] occurs in [s]: the text before the
    first occurrence and the text after it. *)
Fixpoint split_once (sep s : string) : option (string * string) :=
  if String.prefix sep s
  then Some (EmptyString, String.substring (String.length sep)
                            (String.length s - String.length sep) s)
  else match s with
       | EmptyString => None
       | String c s' =>
           match split_once sep s' with
           | Some (a, b) => Some (String c a, b)
           | None => None
           end
       end.

(** [sep.join(parts)] *)
Fixpoint join (sep : string) (parts : list string) : string :=
  match parts with
  | [] => EmptyString
  | [x] => x
  | x :: rest => x +:+ sep +:+ join sep rest
  end.

(** [s.replace(pat, '')] for a non-empty [pat]: every non-overlapping
    occurrence, scanning left to right, is removed.  [skip] counts the
    characters of the current occurrence still to be dropped. *)
Fixpoint remove_all_from (skip : nat) (pat s : string) : string :=
  match s with
  | EmptyString => EmptyString
  | String c s' =>
      match skip with
      | S k => remove_all_from k pat s'
      | O =>
          if String.prefix pat s
          then remove_all_from (String.length pat - 1) pat s'
          else String c (remove_all_from 0 pat s')
      end
  end.

Definition remove_all (pat s : string) : string := remove_all_from 0 pat s.

(** The string [s] repeated [n] times. *)
Fixpoint repeat_str (s : string) (n : nat) : string :=
  match n with
  | O => EmptyString
  | S k => s +:+ repeat_str s k
  end.

(** [str(n)] for a non-negative machine-independent integer. *)
Definition str_nat (n : nat) : string :=
  NilZero.string_of_uint (Nat.to_uint n).

(** [str(z)] for an integer. *)
Definition str_int (z : Z) : string :=
  NilZero.string_of_int (Z.to_int z).

Definition digit_val (c : ascii) : Z := Z.of_nat (nat_of_ascii c - 48).

(** [int(s)] on a string of decimal digits, most significant first. *)
Fixpoint int_of_digits_from (acc : Z) (s : string) : Z :=
  match s with
  | EmptyString => acc
  | String c s' => int_of_digits_from (10 * acc + digit_val c)%Z s'
  end.

Definition int_of_digits (s : string) : Z := int_of_digits_from 0%Z s.

End Py.


Import Py.

(* ===================================================================== *)
(** * The regular expressions of the command grammar *)
(* ===================================================================== *)

(** Each pattern of the source is compiled by hand into a function that
    follows the backtracking matcher (in the comments [Q] stands for the
    double quote character, and a blank separates a star from a closing
    parenthesis): a greedy repetition is a [span], and
    where giving characters back can make a difference (the [set] pattern)
    the alternatives are tried in the matcher's order. *)
Module Re.

Definition not_dq (c : ascii) : bool := negb (is_char dq_char c).
Definition not_nl (c : ascii) : bool := negb (is_char nl_char c).

(** [[^Q\s,]] *)
Definition is_bare (c : ascii) : bool :=
  not_dq c && negb (is_space c) && negb (is_char "," c).

(** [.*] at the end of a pattern: the rest of the line. *)
Definition dot_star (s : string) : string := fst (span not_nl s).

(** A literal prefix. *)
Fixpoint literal (lit s : string) : option string :=
  match lit with
  | EmptyString => Some s
  | String a lit' =>
      match s with
      | String b s' => if Ascii.eqb a b then literal lit' s' else None
      | EmptyString => None
      end
  end.

(** [Q([^Q]+)Q] : the quoted text and what follows the closing quote.
    The text stops at the first quote, so no shorter text can match. *)
Definition quoted_at (s : string) : option (string * string) :=
  match s with
  | String q r =>
      if is_char dq_char q then
        match span not_dq r with
        | (String c t, String _ r') => Some (String c t, r')
        | _ => None
        end
      else None
  | EmptyString => None
  end.

(** [(\w+)\s*(.* )] with [re.match]: command word and argument text. *)
Definition command_match (s : string) : option (string * string) :=
  match span is_word s with
  | (String c w, r) => Some (String c w, dot_star (lstrip r))
  | _ => None
  end.

(** [Q([^Q]+)Q\s*(.* )] : [page], [section], [paragraph], [image],
    [button], [item]. *)
Definition quoted_then_rest (s : string) : option (string * string) :=
  match quoted_at s with
  | Some (t, r) => Some (t, dot_star (lstrip r))
  | None => None
  end.

(** [level=(\d+)\s*Q([^Q]+)Q\s*(.* )] *)
Definition heading_match (s : string) : option (string * string * string) :=
  match literal "level=" s with
  | Some r =>
      match span is_digit r with
      | (String d ds, r1) =>
          match quoted_then_rest (lstrip r1) with
          | Some (t, rest) => Some (String d ds, t, rest)
          | None => None
          end
      | _ => None
      end
  | None => None
  end.

(** [Q([^Q]+)Q\s*Q([^Q]+)Q\s*(.* )] *)
Definition link_match (s : string) : option (string * string * string) :=
  match quoted_at s with
  | Some (t, r) =>
      match quoted_then_rest (lstrip r) with
      | Some (h, rest) => Some (t, h, rest)
      | None => None
      end
  | None => None
  end.

(** [type=Q(ordered|unordered)Q\s*(.* )] *)
Definition list_match (s : string) : option (string * string) :=
  match literal ("type=" +:+ dq) s with
  | Some r =>
      match literal ("ordered" +:+ dq) r with
      | Some r' => Some ("ordered", dot_star (lstrip r'))
      | None =>
          match literal ("unordered" +:+ dq) r with
          | Some r' => Some ("unordered", dot_star (lstrip r'))
          | None => None
          end
      end
  | None => None
  end.

(** [title=Q([^Q]+)Q\s*(.* )] *)
Definition card_match (s : string) : option (string * string) :=
  match literal "title=" s with
  | Some r => quoted_then_rest r
  | None => None
  end.

(** [.*;] greedy: the text before the last semicolon of the line. *)
Fixpoint dot_star_semi (s : string) : option string :=
  match s with
  | EmptyString => None
  | String c s' =>
      match (if not_nl c then dot_star_semi s' else None) with
      | Some r => Some (String c r)
      | None => if is_char ";" c then Some EmptyString else None
      end
  end.

(** [(.+);] *)
Definition dot_plus_semi (s : string) : option string :=
  match s with
  | EmptyString => None
  | String c s' =>
      if not_nl c then
        match dot_star_semi s' with
        | Some r => Some (String c r)
        | None => None
        end
      else None
  end.

(** [\s*(.+);] : the white space is taken greedily and given back one
    character at a time when the rest does not match. *)
Fixpoint spaces_dot_plus_semi (s : string) : option string :=
  match s with
  | EmptyString => None
  | String c s' =>
      if is_space c then
        match spaces_dot_plus_semi s' with
        | Some r => Some r
        | None => dot_plus_semi s
        end
      else dot_plus_semi s
  end.

(** [(\w+)\s*=\s*(.+);] *)
Definition set_match (s : string) : option (string * string) :=
  match span is_word s with
  | (String c w, r) =>
      match lstrip r with
      | String e r' =>
          if is_char "=" e then
            match spaces_dot_plus_semi r' with
            | Some v => Some (String c w, v)
            | None => None
            end
          else None
      | EmptyString => None
      end
  | _ => None
  end.

(** [\d+] over the whole string. *)
Definition all_digits (s : string) : bool :=
  match span is_digit s with
  | (String _ _, EmptyString) => true
  | _ => false
  end.

(** [^-?\d+(\.\d+)?$] on a stripped string (which has no final newline
    for [$] to skip). *)
Definition number_match (s : string) : bool :=
  let body := match s with
              | String c s' => if is_char "-" c then s' else s
              | EmptyString => s
              end in
  match span is_digit body with
  | (String _ _, EmptyString) => true
  | (String _ _, String c frac) => is_char "." c && all_digits frac
  | _ => false
  end.

(** One occurrence of [(\w+)=(?:Q([^Q]* )Q|([^Q\s,]+))] at the start of
    [s]: the key, the two value groups ([None] for the group of the
    alternative not taken) and the length of the occurrence. *)
Definition attr_at (s : string)
  : option (string * option string * option string * nat) :=
  match span is_word s with
  | (String k ks, String e r) =>
      let key := String k ks in
      if is_char "=" e then
        match r with
        | String q r' =>
            if is_char dq_char q then
              match span not_dq r' with
              | (v, String _ _) =>
                  Some (key, Some v, None,
                        String.length key + 3 + String.length v)
              | _ => None
              end
            else
              match fst (span is_bare r) with
              | String b bs =>
                  Some (key, None, Some (String b bs),
                        String.length key + 1 + String.length (String b bs))
              | EmptyString => None
              end
        | EmptyString => None
        end
      else None
  | _ => None
  end.

(** [re.findall] renders a group that took no part in a match as the
    empty string, never as [None]. *)
Definition group_text (g : option string) : string :=
  match g with
  | Some t => t
  | None => EmptyString
  end.

(** [re.findall] of the attribute pattern: occurrences left to right,
    not overlapping; [skip] counts the characters of the last occurrence
    still to be passed over. *)
Fixpoint findall_attr_from (skip : nat) (s : string)
  : list (string * string * string) :=
  match s with
  | EmptyString => []
  | String _ s' =>
      match skip with
      | S k => findall_attr_from k s'
      | O =>
          match attr_at s with
          | Some (key, g2, g3, len) =>
              (key, group_text g2, group_text g3)
                :: findall_attr_from (len - 1) s'
          | None => findall_attr_from 0 s'
          end
      end
  end.

Definition findall_attr (s : string) : list (string * string * string) :=
  findall_attr_from 0 s.

(** One occurrence of [\$\{(\w+)\}] at the start of [s]: the name and
    the length of the occurrence. *)
Definition var_ref_at (s : string) : option (string * nat) :=
  match literal "${" s with
  | Some r =>
      match span is_word r with
      | (String c w, String e _) =>
          if is_char "}" e
          then Some (String c w, String.length (String c w) + 3)
          else None
      | _ => None
      end
  | None => None
  end.

(** [re.sub] of the variable pattern with the replacement function
    [repl]. *)
Fixpoint sub_var_from (repl : string -> string) (skip : nat) (s : string)
  : string :=
  match s with
  | EmptyString => EmptyString
  | String c s' =>
      match skip with
      | S k => sub_var_from repl k s'
      | O =>
          match var_ref_at s with
          | Some (name, len) => repl name +:+ sub_var_from repl (len - 1) s'
          | None => String c (sub_var_from repl 0 s')
          end
      end
  end.

Definition sub_var (repl : string -> string) (s : string) : string :=
  sub_var_from repl 0 s.

End Re.


(* ===================================================================== *)
(** * Data model *)
(* ===================================================================== *)

(** Values a PSU variable can hold.  [VHost] stands for any other host
    object (a float, a tuple, ...): the interpreter observes a value only
    through [str()] and [bool()]. *)
Inductive value : Type :=
| VStr (s : string)
| VBool (b : bool)
| VInt (z : Z)
| VNone
| VHost (repr : string) (truth : bool).

(** [str(v)] *)
Definition py_str (v : value) : string :=
  match v with
  | VStr s => s
  | VBool true => "True"
  | VBool false => "False"
  | VInt z => str_int z
  | VNone => "None"
  | VHost repr _ => repr
  end.

(** [bool(v)] *)
Definition py_bool (v : value) : bool :=
  match v with
  | VStr s => negb (String.eqb s "")
  | VBool b => b
  | VInt z => negb (Z.eqb z 0)
  | VNone => false
  | VHost _ truth => truth
  end.

(** The variable store [variables]: a dict from names to values. *)
Abbreviation store := (gmap string value).

(** An insertion-ordered dict with string keys and values, as built by
    [parse_attributes] and as carried by a block frame. *)
Definition dict : Type := list (string * string).

(** [d[k] = v] : an existing key keeps its position. *)
Fixpoint dict_set (k v : string) (d : dict) : dict :=
  match d with
  | [] => [(k, v)]
  | (k', v') :: rest =>
      if String.eqb k k' then (k, v) :: rest
      else (k', v') :: dict_set k v rest
  end.

(** [d.get(k)] ; [None] also stands for the [KeyError] of [d[k]]. *)
Fixpoint dict_get (k : string) (d : dict) : option string :=
  match d with
  | [] => None
  | (k', v') :: rest => if String.eqb k k' then Some v' else dict_get k rest
  end.

(** [k in d] *)
Definition dict_mem (k : string) (d : dict) : bool :=
  match dict_get k d with
  | Some _ => true
  | None => false
  end.

(** The kinds of block frames, the second component of a [block_stack]
    entry. *)
Inductive cmd_type : Type :=
| BPage | BSection | BContainer | BList
| BCard | BCardBody | BCardFooter
| BIf | BLoop.

Definition cmd_type_eqb (a b : cmd_type) : bool :=
  match a, b with
  | BPage, BPage | BSection, BSection | BContainer, BContainer
  | BList, BList | BCard, BCard | BCardBody, BCardBody
  | BCardFooter, BCardFooter | BIf, BIf | BLoop, BLoop => true
  | _, _ => false
  end.

(** An entry [(indent_level, command_type, command_data)] of
    [block_stack]. *)
Record frame : Type := Frame {
  indent_level : nat;
  command_type : cmd_type;
  command_data : dict
}.

(** The interpreter state: the module-level globals of the source, the
    locals of [execute_psu_script] that live across lines, and the text
    printed so far.  The three stacks keep their top at the head of the
    list (the source pushes and pops at the end of a Python list). *)
Record interp : Type := Interp {
  variables : store;
  html_output_buffer : list string;
  output_filename : string;
  html_tag_stack : list string;
  block_stack : list frame;
  skip_current_block : bool;
  if_conditions_met_stack : list bool;
  stdout : list string
}.

Definition set_variables (v : store) (st : interp) : interp :=
  Interp v (html_output_buffer st) (output_filename st) (html_tag_stack st)
         (block_stack st) (skip_current_block st)
         (if_conditions_met_stack st) (stdout st).

Definition set_html_output_buffer (b : list string) (st : interp) : interp :=
  Interp (variables st) b (output_filename st) (html_tag_stack st)
         (block_stack st) (skip_current_block st)
         (if_conditions_met_stack st) (stdout st).

Definition set_output_filename (f : string) (st : interp) : interp :=
  Interp (variables st) (html_output_buffer st) f (html_tag_stack st)
         (block_stack st) (skip_current_block st)
         (if_conditions_met_stack st) (stdout st).

Definition set_html_tag_stack (t : list string) (st : interp) : interp :=
  Interp (variables st) (html_output_buffer st) (output_filename st) t
         (block_stack st) (skip_current_block st)
         (if_conditions_met_stack st) (stdout st).

Definition set_block_stack (b : list frame) (st : interp) : interp :=
  Interp (variables st) (html_output_buffer st) (output_filename st)
         (html_tag_stack st) b (skip_current_block st)
         (if_conditions_met_stack st) (stdout st).

Definition set_skip_current_block (b : bool) (st : interp) : interp :=
  Interp (variables st) (html_output_buffer st) (output_filename st)
         (html_tag_stack st) (block_stack st) b
         (if_conditions_met_stack st) (stdout st).

Definition set_if_conditions_met_stack (s : list bool) (st : interp)
  : interp :=
  Interp (variables st) (html_output_buffer st) (output_filename st)
         (html_tag_stack st) (block_stack st) (skip_current_block st)
         s (stdout st).

(** [print(msg)] *)
Definition print (msg : string) (st : interp) : interp :=
  Interp (variables st) (html_output_buffer st) (output_filename st)
         (html_tag_stack st) (block_stack st) (skip_current_block st)
         (if_conditions_met_stack st) (stdout st ++ [msg]).

(** The state at the start of a run. *)
Definition initial_state (out : list string) : interp :=
  Interp ∅ [] "index.html" [] [] false [] out.

(** Exceptions raised inside the [try] of the dispatcher. *)
Inductive exn : Type :=
| ValueError (msg : string)
| OtherException (msg : string).

(** The outcome of a piece of the interpreter that may raise. *)
Inductive result (A : Type) : Type :=
| Ok (a : A)
| Raise (e : exn).
Arguments Ok {A} a.
Arguments Raise {A} e.

Definition bind {A B : Type} (r : result A) (k : A -> result B) : result B :=
  match r with
  | Ok a => k a
  | Raise e => Raise e
  end.

Notation "'do' x <- r ;; k" := (bind r (fun x => k))
  (at level 10, x name, r at level 99, k at level 200).

(** State transformers applied in sequence, in program order. *)
Notation "st |> f" := (f st) (at level 50, left associativity, only parsing).

(* ===================================================================== *)
(** * Attribute parser and interpolation *)
(* ===================================================================== *)

(** [parse_attributes(attr_string)].  The source stores
    [val1 if val1 is not None else val2]; the entries of a [findall] tuple
    are strings, so the test always holds and [val1] is stored. *)
Definition parse_attributes (attr_string : string) : dict :=
  if String.eqb attr_string "" then []
  else fold_left (fun attributes '(key, val1, val2) =>
                    dict_set key val1 attributes)
                 (Re.findall_attr attr_string) [].

(** [replace_var] of [interpolate_variables], on the matched name. *)
Definition replace_var (vars : store) (var_name : string) : string :=
  match vars !! var_name with
  | Some v => py_str v
  | None => "UNDEFINED_VAR_" +:+ var_name
  end.

(** [interpolate_variables(text)] *)
Definition interpolate_variables (vars : store) (text : string) : string :=
  Re.sub_var (replace_var vars) text.

(* ===================================================================== *)
(** * HTML emitter *)
(* ===================================================================== *)

(** [get_html_indent()] *)
Definition get_html_indent (st : interp) : string :=
  repeat_str "    " (List.length (html_tag_stack st)).

(** [append_html_line(html_content)] *)
Definition append_html_line (html_content : string) (st : interp) : interp :=
  set_html_output_buffer
    (html_output_buffer st ++ [get_html_indent st +:+ html_content]) st.

(** [html_tag_stack.append(tag)] *)
Definition push_tag (tag : string) (st : interp) : interp :=
  set_html_tag_stack (tag :: html_tag_stack st) st.

(** [if html_tag_stack and html_tag_stack[-1] == tag: html_tag_stack.pop()] *)
Definition pop_tag_if (tag : string) (st : interp) : interp :=
  match html_tag_stack st with
  | top :: rest =>
      if String.eqb top tag then set_html_tag_stack rest st else st
  | [] => st
  end.

(** [block_stack.append((indent, kind, data))] *)
Definition push_block (indent : nat) (kind : cmd_type) (data : dict)
    (st : interp) : interp :=
  set_block_stack (Frame indent kind data :: block_stack st) st.

(** The rendering of an attribute dict shared by the handlers:
    [' '.join(k=Qinterpolate_variables(v)Q for k, v in attrs.items())]. *)
Definition render_attrs (vars : store) (attrs : dict) : string :=
  join " " (map (fun '(k, v) =>
                   k +:+ "=" +:+ quoted (interpolate_variables vars v))
                attrs).

(* ===================================================================== *)
(** * Block stack: the closing pass *)
(* ===================================================================== *)

(** The conditional bookkeeping done when a popped frame is an [if]. *)
Definition close_if (st : interp) : result interp :=
  match if_conditions_met_stack st with
  | [] => Raise (OtherException "pop from empty list")
  | _ :: rest =>
      Ok (st |> set_if_conditions_met_stack rest
             |> set_skip_current_block
                  (match rest with
                   | [] => false
                   | parent :: _ => negb parent
                   end))
  end.

(** The closing tag of a [section], [container] or [list] frame. *)
Definition close_tagged (data : dict) (st : interp) : result interp :=
  match dict_get "html_tag" data with
  | Some tag =>
      Ok (st |> append_html_line ("</" +:+ tag +:+ ">") |> pop_tag_if tag)
  | None => Raise (OtherException "'html_tag'")
  end.

Definition close_div (st : interp) : interp :=
  st |> append_html_line "</div>" |> pop_tag_if "div".

(** The body of the dedent loop for one popped frame. *)
Definition close_block (f : frame) (st : interp) : result interp :=
  do st1 <- (match command_type f with
             | BIf => close_if st
             | _ => Ok st
             end) ;;
  match command_type f with
  | BPage =>
      Ok (st1 |> append_html_line "    </body>" |> append_html_line "</html>")
  | BSection | BContainer | BList => close_tagged (command_data f) st1
  | BCard | BCardBody | BCardFooter => Ok (close_div st1)
  | BIf | BLoop => Ok st1
  end.

(** [while block_stack and line_indent_spaces <= block_stack[-1][0]] *)
Fixpoint close_loop (line_indent_spaces : nat) (frames : list frame)
    (st : interp) : result interp :=
  match frames with
  | [] => Ok (set_block_stack [] st)
  | f :: rest =>
      if line_indent_spaces <=? indent_level f then
        do st' <- close_block f (set_block_stack rest st) ;;
        close_loop line_indent_spaces rest st'
      else Ok (set_block_stack frames st)
  end.

Definition close_blocks (line_indent_spaces : nat) (st : interp)
  : result interp :=
  close_loop line_indent_spaces (block_stack st) st.

(** The body of the final clean-up loop for one popped frame: a [page]
    frame emits nothing here. *)
Definition final_close_block (f : frame) (st : interp) : result interp :=
  match command_type f with
  | BPage => Ok st
  | BSection | BContainer | BList => close_tagged (command_data f) st
  | BCard | BCardBody | BCardFooter => Ok (close_div st)
  | BIf | BLoop => Ok st
  end.

(** [while block_stack:] of the final clean-up. *)
Fixpoint final_loop (frames : list frame) (st : interp) : result interp :=
  match frames with
  | [] => Ok (set_block_stack [] st)
  | f :: rest =>
      do st' <- final_close_block f (set_block_stack rest st) ;;
      final_loop rest st'
  end.

Definition final_cleanup (st : interp) : result interp :=
  final_loop (block_stack st) st.

(* ===================================================================== *)
(** * Expression evaluation *)
(* ===================================================================== *)

(** What [eval(value_expr, safe_globals, variables)] can do: return a
    value, raise one of the three exceptions the [set] handler catches,
    raise a [ValueError], or raise any other exception. *)
Inductive eval_outcome : Type :=
| EvalValue (v : value)
| EvalCaught
| EvalValueError (msg : string)
| EvalException (msg : string).

(** The two host functions the interpreter calls and does not define:
    [float()] on a decimal literal, and the restricted [eval], which reads
    the store (and, through an assignment expression, may write it). *)
Record host : Type := Host {
  py_float : string -> value;
  py_eval : string -> store -> eval_outcome * store
}.

(** [int(s)] on a string matching the number pattern without a point. *)
Definition py_int (s : string) : Z :=
  match s with
  | String c s' =>
      if is_char "-" c then (- int_of_digits s')%Z else int_of_digits s
  | EmptyString => 0%Z
  end.

(** The right operand of a comparison:
    [right.strip(Q).lower() if right.startswith(Q) and right.endswith(Q)
     else right.lower()]. *)
Definition right_operand (right : string) : string :=
  if startswith dq right && endswith dq right
  then lower (strip_by (is_char dq_char) right)
  else lower right.

(** [str(variables.get(left)).lower()] *)
Definition left_operand (vars : store) (left : string) : string :=
  lower (py_str (default VNone (vars !! left))).

(** The condition of an [if] line.  [split_once] succeeds exactly when the
    separator occurs in the expression. *)
Definition eval_condition (vars : store) (condition_expr : string) : bool :=
  match split_once "==" condition_expr with
  | Some (l, r) =>
      String.eqb (left_operand vars (strip l)) (right_operand (strip r))
  | None =>
      match split_once "!=" condition_expr with
      | Some (l, r) =>
          negb (String.eqb (left_operand vars (strip l))
                           (right_operand (strip r)))
      | None =>
          if String.eqb condition_expr "true"
             || String.eqb condition_expr "false"
          then String.eqb (lower condition_expr) "true"
          else match vars !! condition_expr with
               | Some v => py_bool v
               | None => false
               end
      end
  end.

(** [not result or any(not x for x in if_conditions_met_stack[:-1])],
    where [parents] is the stack below its top. *)
Definition skip_for (result : bool) (parents : list bool) : bool :=
  negb result || existsb negb parents.

(* ===================================================================== *)
(** * Command handlers *)
(* ===================================================================== *)

Section Interpreter.

Variable h : host.

Definition handle_output_html (arg_string : string) (st : interp)
  : result interp :=
  match Re.quoted_at arg_string with
  | Some (name, _) => Ok (set_output_filename name st)
  | None => Raise (ValueError "`output_html` expects a quoted filename.")
  end.

(** [variables[var_name] = v] *)
Definition assign (var_name : string) (v : value) (st : interp) : interp :=
  set_variables (<[var_name := v]> (variables st)) st.

Definition handle_set (arg_string : string) (st : interp) : result interp :=
  match Re.set_match arg_string with
  | Some (var_name, expr) =>
      let value_expr := strip expr in
      if startswith dq value_expr && endswith dq value_expr then
        Ok (assign var_name (VStr (strip_by (is_char dq_char) value_expr)) st)
      else if String.eqb (lower value_expr) "true"
              || String.eqb (lower value_expr) "false" then
        Ok (assign var_name
              (VBool (String.eqb (lower value_expr) "true")) st)
      else if Re.number_match value_expr then
        Ok (assign var_name
              (if contains "." value_expr
               then py_float h value_expr
               else VInt (py_int value_expr)) st)
      else
        let '(outcome, vars') := py_eval h value_expr (variables st) in
        let st' := set_variables vars' st in
        match outcome with
        | EvalValue v => Ok (assign var_name v st')
        | EvalCaught =>
            Ok (st' |> print ("Warning: Could not evaluate expression for '"
                               +:+ var_name +:+ "': '" +:+ value_expr
                               +:+ "'")
                    |> assign var_name VNone)
        | EvalValueError msg => Raise (ValueError msg)
        | EvalException msg => Raise (OtherException msg)
        end
  | None => Raise (ValueError "Invalid `set` command syntax.")
  end.

(** The optional [<link>]/[<script>] line of the page head. *)
Definition head_line (key before after : string) (page_attrs : dict)
    (st : interp) : interp :=
  match dict_get key page_attrs with
  | Some v => append_html_line (before +:+ v +:+ after) st
  | None => st
  end.

Definition handle_page (arg_string : string) (line_indent_spaces : nat)
    (st : interp) : result interp :=
  match Re.quoted_then_rest arg_string with
  | Some (page_title, rest) =>
      let page_attrs := parse_attributes (strip rest) in
      Ok (st |> append_html_line "<!DOCTYPE html>"
             |> append_html_line "<html>"
             |> push_tag "html"
             |> append_html_line "<head>"
             |> push_tag "head"
             |> append_html_line
                  ("    <title>"
                   +:+ interpolate_variables (variables st) page_title
                   +:+ "</title>")
             |> head_line "stylesheet"
                  ("    <link rel=" +:+ quoted "stylesheet" +:+ " href=" +:+ dq)
                  (dq +:+ ">") page_attrs
             |> head_line "script"
                  ("    <script src=" +:+ dq) (dq +:+ "></script>") page_attrs
             |> head_line "favicon"
                  ("    <link rel=" +:+ quoted "icon" +:+ " href=" +:+ dq)
                  (dq +:+ ">") page_attrs
             |> append_html_line "</head>"
             |> (fun s => set_html_tag_stack (tl (html_tag_stack s)) s)
             |> append_html_line "<body>"
             |> push_tag "body"
             |> push_block line_indent_spaces BPage [])
  | None => Raise (ValueError "Invalid `page` command syntax.")
  end.

Definition handle_meta_info (arg_string : string) (st : interp)
  : result interp :=
  let attrs := parse_attributes arg_string in
  Ok (append_html_line
        ("<meta " +:+ render_attrs (variables st) attrs +:+ ">") st).

Definition handle_section (arg_string : string) (line_indent_spaces : nat)
    (st : interp) : result interp :=
  match Re.quoted_then_rest arg_string with
  | Some (section_id, rest) =>
      let attrs := parse_attributes (strip rest) in
      let extra_class :=
        match dict_get "full_width" attrs with
        | Some v =>
            if String.eqb (lower v) "true" then " full-width-section" else ""
        | None => ""
        end in
      let existing_class := default "" (dict_get "class" attrs) in
      let final_class :=
        if negb (String.eqb existing_class "")
           || negb (String.eqb extra_class "")
        then strip ("class=" +:+ quoted (existing_class +:+ extra_class))
        else "" in
      let filtered_attrs :=
        filter (fun kv => negb (String.eqb (fst kv) "full_width")) attrs in
      let attr_str_html := render_attrs (variables st) filtered_attrs in
      Ok (st |> append_html_line
                  (strip ("<section id="
                          +:+ quoted (interpolate_variables (variables st)
                                        section_id)
                          +:+ " " +:+ final_class +:+ " " +:+ attr_str_html
                          +:+ ">"))
             |> push_tag "section"
             |> push_block line_indent_spaces BSection
                  [("html_tag", "section")])
  | None => Raise (ValueError "Invalid `section` command syntax.")
  end.

Definition handle_container (arg_string : string)
    (line_indent_spaces : nat) (st : interp) : result interp :=
  let attrs := parse_attributes arg_string in
  Ok (st |> append_html_line
              ("<div " +:+ render_attrs (variables st) attrs +:+ ">")
         |> push_tag "div"
         |> push_block line_indent_spaces BContainer [("html_tag", "div")]).

(** The line a [heading] of a level in range emits. *)
Definition heading_line (vars : store) (level : Z)
    (text_content attr_str_html : string) : string :=
  "<h" +:+ str_int level +:+ " " +:+ attr_str_html +:+ ">"
  +:+ interpolate_variables vars text_content
  +:+ "</h" +:+ str_int level +:+ ">".

Definition handle_heading (arg_string : string) (st : interp)
  : result interp :=
  match Re.heading_match arg_string with
  | Some (digits, text_content, rest) =>
      let level := int_of_digits digits in
      let attrs := parse_attributes (strip rest) in
      let attr_str_html := render_attrs (variables st) attrs in
      if negb ((1 <=? level)%Z && (level <=? 6)%Z) then
        Raise (ValueError "Heading level must be between 1 and 6.")
      else
        Ok (append_html_line
              (heading_line (variables st) level text_content attr_str_html)
              st)
  | None => Raise (ValueError "Invalid `heading` command syntax.")
  end.

(** The shared shape of [paragraph], [image], [button] and [item]: a
    quoted text, an attribute list, one emitted line. *)
Definition handle_simple (render : store -> string -> string -> string)
    (error : string) (arg_string : string) (st : interp) : result interp :=
  match Re.quoted_then_rest arg_string with
  | Some (text_content, rest) =>
      let attrs := parse_attributes (strip rest) in
      let attr_str_html := render_attrs (variables st) attrs in
      Ok (append_html_line (render (variables st) text_content attr_str_html)
            st)
  | None => Raise (ValueError error)
  end.

Definition paragraph_line (vars : store) (text attr_str_html : string)
  : string :=
  "<p " +:+ attr_str_html +:+ ">" +:+ interpolate_variables vars text
  +:+ "</p>".

Definition image_line (vars : store) (src attr_str_html : string) : string :=
  "<img src=" +:+ quoted (interpolate_variables vars src) +:+ " "
  +:+ attr_str_html +:+ ">".

Definition button_line (vars : store) (text attr_str_html : string)
  : string :=
  "<button " +:+ attr_str_html +:+ ">" +:+ interpolate_variables vars text
  +:+ "</button>".

Definition item_line (vars : store) (text attr_str_html : string) : string :=
  "<li " +:+ attr_str_html +:+ ">" +:+ interpolate_variables vars text
  +:+ "</li>".

Definition handle_link (arg_string : string) (st : interp) : result interp :=
  match Re.link_match arg_string with
  | Some (display_text, href, rest) =>
      let attrs := parse_attributes (strip rest) in
      let attr_str_html := render_attrs (variables st) attrs in
      Ok (append_html_line
            ("<a href=" +:+ quoted (interpolate_variables (variables st) href)
             +:+ " " +:+ attr_str_html +:+ ">"
             +:+ interpolate_variables (variables st) display_text
             +:+ "</a>") st)
  | None => Raise (ValueError "Invalid `link` command syntax.")
  end.

Definition handle_list (arg_string : string) (line_indent_spaces : nat)
    (st : interp) : result interp :=
  match Re.list_match arg_string with
  | Some (list_type, rest) =>
      let html_tag := if String.eqb list_type "ordered" then "ol" else "ul" in
      let attrs := parse_attributes (strip rest) in
      let attr_str_html := render_attrs (variables st) attrs in
      Ok (st |> append_html_line
                  ("<" +:+ html_tag +:+ " " +:+ attr_str_html +:+ ">")
             |> push_tag html_tag
             |> push_block line_indent_spaces BList [("html_tag", html_tag)])
  | None => Raise (ValueError "Invalid `list` command syntax.")
  end.

(** [not block_stack or block_stack[-1][1] not in [kind]] *)
Definition not_directly_inside (kind : cmd_type) (st : interp) : bool :=
  match block_stack st with
  | [] => true
  | top :: _ => negb (cmd_type_eqb (command_type top) kind)
  end.

Definition handle_item (arg_string : string) (st : interp) : result interp :=
  if not_directly_inside BList st then
    Raise (ValueError "`item` command must be directly inside a `list` block.")
  else
    handle_simple item_line "Invalid `item` command syntax." arg_string st.

Definition handle_card (arg_string : string) (line_indent_spaces : nat)
    (st : interp) : result interp :=
  match Re.card_match arg_string with
  | Some (card_title_text, rest) =>
      let attrs := parse_attributes (strip rest) in
      let attr_str_html := render_attrs (variables st) attrs in
      let card_class := default "" (dict_get "class" attrs) in
      Ok (st |> append_html_line
                  (strip ("<div class=" +:+ quoted ("psu-card " +:+ card_class)
                          +:+ " "
                          +:+ remove_all ("class=" +:+ quoted card_class)
                                attr_str_html
                          +:+ ">"))
             |> append_html_line
                  ("    <div class=" +:+ quoted "psu-card-header" +:+ ">")
             |> append_html_line
                  ("        <h2>"
                   +:+ interpolate_variables (variables st) card_title_text
                   +:+ "</h2>")
             |> append_html_line "    </div>"
             |> push_tag "div"
             |> push_block line_indent_spaces BCard [])
  | None => Raise (ValueError "Invalid `card` command syntax.")
  end.

Definition handle_card_part (kind : cmd_type) (css_class error : string)
    (line_indent_spaces : nat) (st : interp) : result interp :=
  if not_directly_inside BCard st then Raise (ValueError error)
  else
    Ok (st |> append_html_line ("<div class=" +:+ quoted css_class +:+ ">")
           |> push_tag "div"
           |> push_block line_indent_spaces kind []).

Definition handle_if (arg_string : string) (line_indent_spaces : nat)
    (st : interp) : result interp :=
  let condition_result := eval_condition (variables st) arg_string in
  Ok (st |> set_if_conditions_met_stack
              (condition_result :: if_conditions_met_stack st)
         |> set_skip_current_block
              (skip_for condition_result (if_conditions_met_stack st))
         |> push_block line_indent_spaces BIf []).

(** The guard of [else]: the top frame is an [if] recorded at the
    indentation of the current line. *)
Definition else_allowed (line_indent_spaces : nat) (st : interp) : bool :=
  match block_stack st with
  | [] => false
  | top :: _ =>
      cmd_type_eqb (command_type top) BIf
      && Nat.eqb line_indent_spaces (indent_level top)
  end.

Definition handle_else (line_indent_spaces : nat) (st : interp)
  : result interp :=
  if negb (else_allowed line_indent_spaces st) then
    Raise (ValueError "`else` command must immediately follow an `if` block at the same indentation level.")
  else
    match if_conditions_met_stack st with
    | [] => Raise (OtherException "pop from empty list")
    | prev_if_result :: parents =>
        let current_else_result := negb prev_if_result in
        Ok (st |> set_if_conditions_met_stack
                    (current_else_result :: parents)
               |> set_skip_current_block
                    (skip_for current_else_result parents))
    end.

Definition handle_loop (line_no : nat) (line_indent_spaces : nat)
    (st : interp) : result interp :=
  Ok (st |> print ("Warning: `loop` command on line " +:+ str_nat line_no
                   +:+ " is a placeholder.")
         |> print "       Full `loop` functionality requires an AST-based interpreter."
         |> push_block line_indent_spaces BLoop []
         |> set_skip_current_block true).

Definition handle_unknown (line_no : nat) (trimmed_line : string)
    (st : interp) : result interp :=
  Ok (print ("Warning: Unknown command or malformed syntax on line "
             +:+ str_nat line_no +:+ ": '" +:+ trimmed_line +:+ "'") st).

(** The body of the [try]: the chain of [if command == ...] tests. *)
Definition dispatch (line_no line_indent_spaces : nat)
    (trimmed_line command arg_string : string) (st : interp)
  : result interp :=
  if String.eqb command "output_html" then handle_output_html arg_string st
  else if String.eqb command "set" then handle_set arg_string st
  else if String.eqb command "page" then
    handle_page arg_string line_indent_spaces st
  else if String.eqb command "meta_info" then handle_meta_info arg_string st
  else if String.eqb command "section" then
    handle_section arg_string line_indent_spaces st
  else if String.eqb command "container" then
    handle_container arg_string line_indent_spaces st
  else if String.eqb command "heading" then handle_heading arg_string st
  else if String.eqb command "paragraph" then
    handle_simple paragraph_line "Invalid `paragraph` command syntax."
      arg_string st
  else if String.eqb command "image" then
    handle_simple image_line "Invalid `image` command syntax." arg_string st
  else if String.eqb command "button" then
    handle_simple button_line "Invalid `button` command syntax." arg_string st
  else if String.eqb command "link" then handle_link arg_string st
  else if String.eqb command "list" then
    handle_list arg_string line_indent_spaces st
  else if String.eqb command "item" then handle_item arg_string st
  else if String.eqb command "card" then
    handle_card arg_string line_indent_spaces st
  else if String.eqb command "card_body" then
    handle_card_part BCardBody "psu-card-body"
      "`card_body` must be directly inside a `card` block."
      line_indent_spaces st
  else if String.eqb command "card_footer" then
    handle_card_part BCardFooter "psu-card-footer"
      "`card_footer` must be directly inside a `card` block."
      line_indent_spaces st
  else if String.eqb command "if" then
    handle_if arg_string line_indent_spaces st
  else if String.eqb command "else" then handle_else line_indent_spaces st
  else if String.eqb command "loop" then
    handle_loop line_no line_indent_spaces st
  else handle_unknown line_no trimmed_line st.

End Interpreter.

(* ===================================================================== *)
(** * The line loop and the driver *)
(* ===================================================================== *)

(** What processing one line leads to: the loop goes on, the process
    exits through [sys.exit(1)] after printing a diagnostic, or an
    exception escapes (the closing pass runs outside the [try]).  In the
    last two cases the output file is never written. *)
Inductive step : Type :=
| Continue (st : interp)
| Exit (out : list string)
| Uncaught (out : list string) (e : exn).

(** [len(line) - len(line.lstrip())] *)
Definition indent_of (line : string) : nat :=
  String.length line - String.length (lstrip line).

(** [trimmed_line.startswith('..') or not trimmed_line] *)
Definition is_comment_or_blank (trimmed_line : string) : bool :=
  startswith ".." trimmed_line || String.eqb trimmed_line "".

(** The argument text of a command: a final colon marks a block command
    and is removed. *)
Definition argument_of (group2 : string) : string :=
  let arg_string := strip group2 in
  if endswith ":" arg_string
  then strip (rstrip_by (is_char ":") arg_string)
  else arg_string.

Definition error_on_line (line_no : nat) (msg : string) : string :=
  "Error on line " +:+ str_nat line_no +:+ ": " +:+ msg.

Definition unhandled_on_line (line_no : nat) (msg : string) : string :=
  "Unhandled error on line " +:+ str_nat line_no +:+ ": " +:+ msg.

Section Driver.

Variable h : host.

(** One iteration of the [while] loop over the lines, at the 0-based
    index [current_line_index]. *)
Definition process_line (current_line_index : nat) (line : string)
    (st : interp) : step :=
  let trimmed_line := strip line in
  let line_indent_spaces := indent_of line in
  if is_comment_or_blank trimmed_line then Continue st
  else
    match close_blocks line_indent_spaces st with
    | Raise e => Uncaught (stdout st) e
    | Ok st1 =>
        if skip_current_block st1 then Continue st1
        else
          let line_no := current_line_index + 1 in
          match Re.command_match trimmed_line with
          | None =>
              Exit (stdout st1
                    ++ ["Error: Malformed line " +:+ str_nat line_no
                        +:+ ": '" +:+ trimmed_line +:+ "'"])
          | Some (command, group2) =>
              match dispatch h line_no line_indent_spaces trimmed_line
                      command (argument_of group2) st1 with
              | Ok st2 => Continue st2
              | Raise (ValueError msg) =>
                  Exit (stdout st1 ++ [error_on_line line_no msg])
              | Raise (OtherException msg) =>
                  Exit (stdout st1 ++ [unhandled_on_line line_no msg])
              end
          end
    end.

(** The [while current_line_index < len(lines)] loop from a given
    index. *)
Fixpoint run_lines (current_line_index : nat) (lines : list string)
    (st : interp) : step :=
  match lines with
  | [] => Continue st
  | line :: rest =>
      match process_line current_line_index line st with
      | Continue st' => run_lines (S current_line_index) rest st'
      | stop => stop
      end
  end.

(** Everything [execute_psu_script] does between reading the file and
    writing the output: header check, line loop, final clean-up. *)
Definition interpret (filepath : string) (lines : list string) : step :=
  let out0 := ["--- Starting PSU Interpreter for: " +:+ filepath +:+ " ---"] in
  let no_psload :=
    Exit (out0 ++ ["Error: .psu script '" +:+ filepath
                   +:+ "' must start with 'psload' on the first line."]) in
  let no_psstart :=
    Exit (out0 ++ ["Error: .psu script '" +:+ filepath
                   +:+ "' must have 'psstart' on the second line."]) in
  match lines with
  | [] => no_psload
  | first :: after_first =>
      if negb (String.eqb (strip first) "psload") then no_psload
      else
        match after_first with
        | [] => no_psstart
        | second :: body =>
            if negb (String.eqb (strip second) "psstart") then no_psstart
            else
              match run_lines 2 body
                      (initial_state
                         (out0 ++ ["`psload` and `psstart` directives validated."]))
              with
              | Continue st =>
                  match final_cleanup st with
                  | Ok st' => Continue st'
                  | Raise e => Uncaught (stdout st) e
                  end
              | stop => stop
              end
        end
  end.

(** How a run ends.  Only [Written] reaches the [open(output_filename,
    'w')] of the source. *)
Inductive run_result : Type :=
| Exited (out : list string)
| Crashed (out : list string) (e : exn)
| Written (filename content : string) (out : list string).

(** [execute_psu_script(filepath)], on the lines [readlines()] returned.
    Failures of the file system are outside the model. *)
Definition execute_psu_script (filepath : string) (lines : list string)
  : run_result :=
  match interpret filepath lines with
  | Continue st =>
      Written (output_filename st) (join nl (html_output_buffer st))
              (stdout st ++ ["--- Successfully generated HTML file: "
                             +:+ output_filename st +:+ " ---"])
  | Exit out => Exited out
  | Uncaught out e => Crashed out e
  end.

End Driver.

(** A host for running examples: [float()] keeps the literal as its
    printed form, and [eval] understands nothing, so that every expression
    raises one of the caught exceptions. *)
Definition plain_host : host :=
  Host (fun lit => VHost lit true) (fun _ vars => (EvalCaught, vars)).

Definition ln (s : string) : string := s +:+ nl.

(** The two header lines every script starts with. *)
Definition header : list string := [ln "psload"; ln "psstart"].

(** [if true:] with a body, then [else:] at the same indentation with a
    body. *)
Definition script_if_else : list string :=
  header ++
  [ln "if true:";
   ln ("    paragraph " +:+ quoted "a" +:+ ":");
   ln "else:";
   ln ("    paragraph " +:+ quoted "b" +:+ ":")].

(** A page whose block is still open when the script ends. *)
Definition script_open_page : list string :=
  header ++
  [ln ("page " +:+ quoted "T" +:+ ":");
   ln ("    paragraph " +:+ quoted "x" +:+ ":")].

(** A page closed by a dedent: a later line at the page's indentation. *)
Definition script_closed_page : list string :=
  header ++
  [ln ("page " +:+ quoted "T" +:+ ":");
   ln ("    paragraph " +:+ quoted "x" +:+ ":");
   ln ("set done = true;")].

(** A loop with a body, followed by a line at the loop's indentation. *)
Definition script_loop : list string :=
  header ++
  [ln "loop i from 1 to 3:";
   ln ("    paragraph " +:+ quoted "a" +:+ ":");
   ln ("paragraph " +:+ quoted "b" +:+ ":")].

(** [if True:] with a body. *)
Definition script_if_True : list string :=
  header ++
  [ln "if True:";
   ln ("    paragraph " +:+ quoted "shown" +:+ ":")].

(** A variable set to the string [false], then tested. *)
Definition script_string_false : list string :=
  header ++
  [ln ("set x = " +:+ quoted "false" +:+ ";");
   ln "if x:";
   ln ("    paragraph " +:+ quoted "shown" +:+ ":")].

(** An [item] outside any list. *)
Definition script_stray_item : list string :=
  header ++
  [ln ("paragraph " +:+ quoted "p" +:+ ":");
   ln ("item " +:+ quoted "x" +:+ ":")].

(** The diagnostics every run prints before it reaches the first script
    line. *)
Definition startup_output (filepath : string) : list string :=
  ["--- Starting PSU Interpreter for: " +:+ filepath +:+ " ---";
   "`psload` and `psstart` directives validated."].

(** The same, for the file name used in the examples. *)
Definition banner : list string := startup_output "a.psu".

Definition success_line : string :=
  "--- Successfully generated HTML file: index.html ---".

(** The state in which one [section] block, written at indentation 4, is
    open. *)
Definition state_in_section : interp :=
  initial_state banner
    |> append_html_line ("<section id=" +:+ quoted "s" +:+ ">")
    |> push_tag "section"
    |> push_block 4 BSection [("html_tag", "section")].

(** A stored value (or the absence of one) that counts as false when a
    bare variable name is the condition of an [if]. *)
Definition falsy (o : option value) : Prop :=
  o = None \/ o = Some VNone \/ o = Some (VBool false) \/ o = Some (VInt 0)
  \/ o = Some (VStr "") \/ exists repr, o = Some (VHost repr false).

(** The state after the first script line of [script_stray_item]. *)
Definition state_after_paragraph : interp :=
  initial_state banner |> append_html_line "<p >p</p>".

(** The structural errors of a command line: the conditions under which a
    command, met in state [st] on a line of indentation
    [line_indent_spaces] with argument text [arg], is rejected, and the
    message of the rejection. *)
Inductive structural_error (st : interp) (line_indent_spaces : nat)
  : string -> string -> string -> Prop :=
| item_outside_list arg :
    not_directly_inside BList st = true ->
    structural_error st line_indent_spaces "item" arg
      "`item` command must be directly inside a `list` block."
| card_body_outside_card arg :
    not_directly_inside BCard st = true ->
    structural_error st line_indent_spaces "card_body" arg
      "`card_body` must be directly inside a `card` block."
| card_footer_outside_card arg :
    not_directly_inside BCard st = true ->
    structural_error st line_indent_spaces "card_footer" arg
      "`card_footer` must be directly inside a `card` block."
| else_without_if arg :
    else_allowed line_indent_spaces st = false ->
    structural_error st line_indent_spaces "else" arg
      "`else` command must immediately follow an `if` block at the same indentation level."
| malformed_output_html arg :
    Re.quoted_at arg = None ->
    structural_error st line_indent_spaces "output_html" arg
      "`output_html` expects a quoted filename."
| malformed_set arg :
    Re.set_match arg = None ->
    structural_error st line_indent_spaces "set" arg
      "Invalid `set` command syntax."
| malformed_page arg :
    Re.quoted_then_rest arg = None ->
    structural_error st line_indent_spaces "page" arg
      "Invalid `page` command syntax."
| malformed_section arg :
    Re.quoted_then_rest arg = None ->
    structural_error st line_indent_spaces "section" arg
      "Invalid `section` command syntax."
| malformed_heading arg :
    Re.heading_match arg = None ->
    structural_error st line_indent_spaces "heading" arg
      "Invalid `heading` command syntax."
| malformed_paragraph arg :
    Re.quoted_then_rest arg = None ->
    structural_error st line_indent_spaces "paragraph" arg
      "Invalid `paragraph` command syntax."
| malformed_image arg :
    Re.quoted_then_rest arg = None ->
    structural_error st line_indent_spaces "image" arg
      "Invalid `image` command syntax."
| malformed_button arg :
    Re.quoted_then_rest arg = None ->
    structural_error st line_indent_spaces "button" arg
      "Invalid `button` command syntax."
| malformed_link arg :
    Re.link_match arg = None ->
    structural_error st line_indent_spaces "link" arg
      "Invalid `link` command syntax."
| malformed_list arg :
    Re.list_match arg = None ->
    structural_error st line_indent_spaces "list" arg
      "Invalid `list` command syntax."
| malformed_item arg :
    not_directly_inside BList st = false ->
    Re.quoted_then_rest arg = None ->
    structural_error st line_indent_spaces "item" arg
      "Invalid `item` command syntax."
| malformed_card arg :
    Re.card_match arg = None ->
    structural_error st line_indent_spaces "card" arg
      "Invalid `card` command syntax.".

(* ===================================================================== *)
(** * The command-line entry point *)
(* ===================================================================== *)

(** What [open(filepath).readlines()] can do. *)
Inductive read_outcome : Type :=
| ReadLines (lines : list string)
| FileNotFound
| ReadFailed (msg : string).

(** [execute_psu_script(filepath)] with the reading of the file, for a
    file system [fs]. *)
Definition execute_psu_file (h : host) (fs : string -> read_outcome)
    (filepath : string) : run_result :=
  match fs filepath with
  | ReadLines lines => execute_psu_script h filepath lines
  | FileNotFound =>
      Exited ["--- Starting PSU Interpreter for: " +:+ filepath +:+ " ---";
              "Error: PSU script file not found at '" +:+ filepath +:+ "'"]
  | ReadFailed msg =>
      Exited ["--- Starting PSU Interpreter for: " +:+ filepath +:+ " ---";
              "Error reading PSU script file: " +:+ msg]
  end.

(** The [__main__] block, on [sys.argv]. *)
Definition main (h : host) (fs : string -> read_outcome)
    (argv : list string) : run_result :=
  match argv with
  | _ :: psu_file_path :: _ =>
      if negb (endswith ".psu" (lower psu_file_path))
      then Exited ["Error: Input file must have a .psu extension."]
      else execute_psu_file h fs psu_file_path
  | _ => Exited ["Usage: python interpreter/main.py <path_to_psu_script.psu>"]
  end.

(* ===================================================================== *)
(** * Invariants of the interpreter state *)
(* ===================================================================== *)

(** A frame whose closing reads the [html_tag] entry has one. *)
Definition frame_ok (f : frame) : Prop :=
  match command_type f with
  | BSection | BContainer | BList =>
      is_Some (dict_get "html_tag" (command_data f))
  | _ => True
  end.

(** The number of [if] frames among [frames]. *)
Fixpoint count_if (frames : list frame) : nat :=
  match frames with
  | [] => 0
  | f :: rest =>
      (if cmd_type_eqb (command_type f) BIf then 1 else 0) + count_if rest
  end.

(** The state is consistent: tagged frames carry their tag, and the stack
    of condition results has one entry per open [if] frame. *)
Definition consistent (st : interp) : Prop :=
  Forall frame_ok (block_stack st)
  /\ List.length (if_conditions_met_stack st) = count_if (block_stack st).

(** From the top of the stack downwards the recorded indentations
    strictly decrease. *)
Fixpoint decreasing (frames : list frame) : Prop :=
  match frames with
  | [] => True
  | f :: rest =>
      match rest with
      | [] => True
      | g :: _ => indent_level g < indent_level f
      end /\ decreasing rest
  end.

(** The output buffer and the printed text only grow at the end. *)
Definition grows (st st' : interp) : Prop :=
  html_output_buffer st `prefix_of` html_output_buffer st'
  /\ stdout st `prefix_of` stdout st'.

(** What a command that succeeds does to the stacks, on a line of
    indentation [indent]: it leaves the block stack and the number of
    condition results as they are, or it pushes one frame recorded at
    [indent], with its tag if it needs one, and one condition result
    exactly when the frame is an [if]. *)
Definition dispatched (indent : nat) (st st' : interp) : Prop :=
  grows st st'
  /\ ((block_stack st' = block_stack st
       /\ List.length (if_conditions_met_stack st')
          = List.length (if_conditions_met_stack st))
      \/ (exists f,
             block_stack st' = f :: block_stack st
             /\ indent_level f = indent
             /\ frame_ok f
             /\ List.length (if_conditions_met_stack st')
                = (if cmd_type_eqb (command_type f) BIf then 1 else 0)
                  + List.length (if_conditions_met_stack st))).

(** The body of a script with nested blocks: a page, a section in it, a
    list in the section with one item, a false [if] with a body, then a
    paragraph back at the list's level. *)
Definition nested_body : list string :=
  [ln ("page " +:+ quoted "T" +:+ ":");
   ln ("    section " +:+ quoted "s" +:+ ":");
   ln ("        list type=" +:+ quoted "ordered" +:+ ":");
   ln ("            item " +:+ quoted "one" +:+ ":");
   ln ("        if missing:");
   ln ("            paragraph " +:+ quoted "hidden" +:+ ":");
   ln ("        paragraph " +:+ quoted "p" +:+ ":")].

(** The first group of the last occurrence of [key] among the
    occurrences [re.findall] returned. *)
Fixpoint last_value (key : string) (matches : list (string * string * string))
  : option string :=
  match matches with
  | [] => None
  | (k, val1, _) :: rest =>
      match last_value key rest with
      | Some v => Some v
      | None => if String.eqb key k then Some val1 else None
      end
  end.

(** The character [c] does not occur in [s]. *)
Definition no_char (c : ascii) (s : string) : bool :=
  all_chars (fun x => negb (is_char c x)) s.

(** The closing tag the final clean-up emits for a frame, if any. *)
Definition closing_tag (f : frame) : option string :=
  match command_type f with
  | BSection | BContainer | BList =>
      match dict_get "html_tag" (command_data f) with
      | Some tag => Some ("</" +:+ tag +:+ ">")
      | None => None
      end
  | BCard | BCardBody | BCardFooter => Some "</div>"
  | BPage | BIf | BLoop => None
  end.

(** The commands the dispatcher knows. *)
Definition known_commands : list string :=
  ["output_html"; "set"; "page"; "meta_info"; "section"; "container";
   "heading"; "paragraph"; "image"; "button"; "link"; "list"; "item";
   "card"; "card_body"; "card_footer"; "if"; "else"; "loop"].

(* ===================================================================== *)
(** * Properties of the closing pass and of the skip state *)
(* ===================================================================== *)

(** After the closing pass no frame recorded at the indentation of the
    current line (or deeper) is left on top of the block stack; the guard
    of [else] can therefore not hold. *)
Lemma close_loop_else_not_allowed n frames st st' :
  close_loop n frames st = Ok st' -> else_allowed n st' = false.
Proof.
  revert st. induction frames as [|f rest IH]; intros st; simpl.
  - intros H. inversion H. reflexivity.
  - destruct (n <=? indent_level f) eqn:Hle.
    + destruct (close_block f (set_block_stack rest st)) as [st1|e] eqn:Hc;
        simpl; [apply IH | discriminate].
    + intros H. inversion H. unfold else_allowed. simpl.
      apply Nat.leb_gt in Hle.
      replace (n =? indent_level f) with false
        by (symmetry; apply Nat.eqb_neq; lia).
      apply andb_false_r.
Qed.

(** Popping a frame that is not an [if] leaves the skip flag alone. *)
Lemma close_block_skip f st st' :
  command_type f <> BIf ->
  close_block f st = Ok st' ->
  skip_current_block st' = skip_current_block st.
Proof.
  unfold close_block, close_tagged, close_div, pop_tag_if.
  intros Hk. destruct (command_type f); try congruence; simpl;
    repeat match goal with
           | |- context [match ?x with _ => _ end] => destruct x; simpl
           end;
    intros H; inversion H; subst; reflexivity.
Qed.

(** A closing pass that meets no [if] frame never resets the skip flag:
    the flag a [loop] line raised survives the closing of the loop. *)
Lemma close_loop_skip n frames st st' :
  Forall (fun f => command_type f <> BIf) frames ->
  close_loop n frames st = Ok st' ->
  skip_current_block st' = skip_current_block st.
Proof.
  intros Hall. revert st.
  induction Hall as [|f rest Hf Hrest IH]; intros st; simpl.
  - intros H. inversion H. reflexivity.
  - destruct (n <=? indent_level f).
    + destruct (close_block f (set_block_stack rest st)) as [st1|e] eqn:Hc;
        simpl; [|discriminate].
      intros H. rewrite (IH _ H).
      apply (close_block_skip _ _ _ Hf Hc).
    + intros H. inversion H. reflexivity.
Qed.

(** The two closing paths treat a [page] frame differently: the dedent
    loop emits the closing tags of the body and of the document, the
    final clean-up emits nothing. *)
Lemma page_frame_closing n d st :
  close_block (Frame n BPage d) st
  = Ok (st |> append_html_line "    </body>" |> append_html_line "</html>")
  /\ final_close_block (Frame n BPage d) st = Ok st.
Proof. split; reflexivity. Qed.

(** For every other kind of frame the final clean-up emits what the
    dedent loop emits. *)
Lemma final_close_matches_dedent f st :
  command_type f <> BPage -> command_type f <> BIf ->
  final_close_block f st = close_block f st.
Proof.
  unfold final_close_block, close_block.
  destruct (command_type f); simpl; congruence.
Qed.

(* ===================================================================== *)
(** * Runs of the example scripts *)
(* ===================================================================== *)

(** C1.  A script with [if true:], a body, then [else:] at the same
    indentation: the closing pass has already popped the [if] frame when
    [else] is dispatched, the guard of [else] fails, and the run exits
    with an error on line 5.  No output is written; neither body's line
    reaches an output file. *)
Theorem else_after_if_aborts (h : host) :
  execute_psu_script h "a.psu" script_if_else
  = Exited (banner ++
      ["Error on line 5: `else` command must immediately follow an `if` block at the same indentation level."]).
Proof. vm_compute. reflexivity. Qed.

(** C2.  A [page] block still open at the end of the script: the written
    document ends with the paragraph; neither the closing tag of the body
    nor that of the document is emitted. *)
Theorem open_page_left_unclosed (h : host) :
  execute_psu_script h "a.psu" script_open_page
  = Written "index.html"
      (join nl ["<!DOCTYPE html>";
                "<html>";
                "    <head>";
                "            <title>T</title>";
                "        </head>";
                "    <body>";
                "        <p >x</p>"])
      (banner ++ [success_line]).
Proof. vm_compute. reflexivity. Qed.

(** The same page closed by a dedent gets both closing tags. *)
Lemma dedented_page_closed (h : host) :
  execute_psu_script h "a.psu" script_closed_page
  = Written "index.html"
      (join nl ["<!DOCTYPE html>";
                "<html>";
                "    <head>";
                "            <title>T</title>";
                "        </head>";
                "    <body>";
                "        <p >x</p>";
                "            </body>";
                "        </html>"])
      (banner ++ [success_line]).
Proof. vm_compute. reflexivity. Qed.

(** C3.  A [loop] block followed by a paragraph at the loop's own
    indentation: the paragraph after the loop is suppressed together with
    the loop body, and the written document is empty. *)
Theorem line_after_loop_suppressed (h : host) :
  execute_psu_script h "a.psu" script_loop
  = Written "index.html" ""
      (banner ++
       ["Warning: `loop` command on line 3 is a placeholder.";
        "       Full `loop` functionality requires an AST-based interpreter.";
        success_line]).
Proof. vm_compute. reflexivity. Qed.

(** C4.  A bare-token attribute is stored with the empty string as its
    value, a quoted attribute with its text, and an empty attribute list
    gives the empty dict. *)
Theorem bare_attribute_value_lost :
  parse_attributes "width=100" = [("width", "")]
  /\ parse_attributes ("class=" +:+ quoted "a b" +:+ ", width=100")
     = [("class", "a b"); ("width", "")]
  /\ parse_attributes "" = [].
Proof. repeat split; vm_compute; reflexivity. Qed.

(** C6.  The condition [True] is not recognised as a literal: it is
    looked up as a variable, is undefined, and evaluates to false, so the
    body of [if True:] is not emitted. *)
Theorem capitalised_true_is_false (h : host) :
  eval_condition ∅ "True" = false
  /\ execute_psu_script h "a.psu" script_if_True
     = Written "index.html" "" (banner ++ [success_line]).
Proof. split; vm_compute; reflexivity. Qed.

(* ===================================================================== *)
(** * Conditions *)
(* ===================================================================== *)

Lemma split_once_absent sep s :
  contains sep s = false -> split_once sep s = None.
Proof.
  induction s as [|c s IH]; simpl.
  - rewrite orb_false_r. intros ->. reflexivity.
  - intros H. apply orb_false_elim in H as [Hp Hc].
    rewrite Hp, (IH Hc). reflexivity.
Qed.

Lemma py_bool_false_iff o :
  py_bool (default (VBool false) o) = false <-> falsy o.
Proof.
  unfold falsy. split.
  - destruct o as [[s|[]|z|  |repr []]|]; simpl; intros H;
      try discriminate; eauto 10.
    + destruct s; [eauto 10 | discriminate].
    + destruct z; try discriminate. eauto 10.
  - intros [->|[->|[->|[->|[->|[repr ->]]]]]]; reflexivity.
Qed.

(** On a store that has no variable named [True], the condition [True]
    is false. *)
Lemma capitalised_true_unbound (vars : store) :
  vars !! "True" = None -> eval_condition vars "True" = false.
Proof. intros H. unfold eval_condition. simpl. rewrite H. reflexivity. Qed.

(** C7, as the source has it.  A condition with neither [==] nor [!=]
    that is not exactly [true] or [false] is the host truth value of the
    variable of that name: false exactly when the variable is undefined
    or holds None, boolean false, the number 0, the empty string or a
    host object that is false; a variable holding the string [false], a
    non-empty string, makes the condition true. *)
Theorem bare_variable_condition (vars : store) (cond : string) :
  contains "==" cond = false ->
  contains "!=" cond = false ->
  cond <> "true" -> cond <> "false" ->
  (eval_condition vars cond = false <-> falsy (vars !! cond))
  /\ (vars !! cond = Some (VStr "false") -> eval_condition vars cond = true).
Proof.
  intros Heq Hne Ht Hf.
  assert (E : eval_condition vars cond
              = py_bool (default (VBool false) (vars !! cond))).
  { unfold eval_condition.
    rewrite (split_once_absent _ _ Heq), (split_once_absent _ _ Hne).
    apply String.eqb_neq in Ht, Hf. rewrite Ht, Hf. simpl.
    destruct (vars !! cond); reflexivity. }
  split.
  - rewrite E. apply py_bool_false_iff.
  - intros H. rewrite E, H. reflexivity.
Qed.

Lemma bare_variable_condition_witness :
  (eval_condition {[ "x" := VStr "false" ]} "x" = false
   <-> falsy (({[ "x" := VStr "false" ]} : store) !! "x"))
  /\ (({[ "x" := VStr "false" ]} : store) !! "x" = Some (VStr "false") ->
      eval_condition {[ "x" := VStr "false" ]} "x" = true).
Proof.
  apply (bare_variable_condition {[ "x" := VStr "false" ]} "x");
    try reflexivity; discriminate.
Defined.

(** C7, counterexample.  After [set x = Qfalse Q;] the variable [x] holds
    the string [false]; the condition [x] is then true and the body of
    [if x:] is emitted. *)
Lemma string_false_variable_is_truthy :
  (exists st,
      handle_set plain_host ("x = " +:+ quoted "false" +:+ ";")
        (initial_state banner) = Ok st
      /\ variables st !! "x" = Some (VStr "false")
      /\ eval_condition (variables st) "x" = true)
  /\ execute_psu_script plain_host "a.psu" script_string_false
     = Written "index.html" "<p >shown</p>" (banner ++ [success_line]).
Proof.
  split.
  - eexists. split; [vm_compute; reflexivity|].
    split; vm_compute; reflexivity.
  - vm_compute. reflexivity.
Qed.

(* ===================================================================== *)
(** * Lines that are skipped, and the [else] line *)
(* ===================================================================== *)

(** C5, as the source has it.  A blank line and a line whose text begins
    with two dots leave the whole interpreter state as it is: the line is
    not parsed, no frame is popped and nothing is emitted. *)
Theorem comment_or_blank_line_skipped (h : host) (idx : nat) (line : string)
    (st : interp) :
  strip line = "" \/ startswith ".." (strip line) = true ->
  process_line h idx line st = Continue st.
Proof.
  intros H. unfold process_line, is_comment_or_blank.
  destruct H as [-> | ->]; [rewrite orb_true_r|]; reflexivity.
Qed.

Lemma comment_or_blank_line_skipped_witness :
  (strip (ln ".. note") = "" \/ startswith ".." (strip (ln ".. note")) = true)
  /\ process_line plain_host 3 (ln ".. note") state_in_section
     = Continue state_in_section.
Proof.
  split; [right; reflexivity|].
  apply comment_or_blank_line_skipped. right. reflexivity.
Defined.

(** C5, counterexample.  With a [section] frame recorded at indentation 4
    open, a comment line at indentation 0 leaves the frame on the stack
    and emits nothing, while a command line at the same indentation pops
    the frame and emits its closing tag. *)
Lemma comment_line_closes_no_block :
  is_comment_or_blank (strip (ln ".. note")) = true
  /\ indent_of (ln ".. note") = 0
  /\ block_stack state_in_section
     = [Frame 4 BSection [("html_tag", "section")]]
  /\ process_line plain_host 3 (ln ".. note") state_in_section
     = Continue state_in_section
  /\ exists st1,
      process_line plain_host 3 (ln ("output_html " +:+ quoted "o.html"))
        state_in_section = Continue st1
      /\ block_stack st1 = []
      /\ html_output_buffer st1
         = html_output_buffer state_in_section ++ ["    </section>"].
Proof.
  repeat split; try (vm_compute; reflexivity).
  eexists. split; [vm_compute; reflexivity|].
  split; vm_compute; reflexivity.
Qed.

(** An [else] line is never executed: whatever the state, the line is
    either skipped with its block, or the run stops at it. *)
Lemma else_line_never_executed (h : host) (idx : nat) (line group2 : string)
    (st : interp) :
  is_comment_or_blank (strip line) = false ->
  Re.command_match (strip line) = Some ("else", group2) ->
  (exists st1, close_blocks (indent_of line) st = Ok st1
               /\ skip_current_block st1 = true
               /\ process_line h idx line st = Continue st1)
  \/ (exists st1, close_blocks (indent_of line) st = Ok st1
                  /\ process_line h idx line st
                     = Exit (stdout st1 ++
                         [error_on_line (idx + 1)
                            "`else` command must immediately follow an `if` block at the same indentation level."]))
  \/ (exists e, process_line h idx line st = Uncaught (stdout st) e).
Proof.
  intros Hb Hc. unfold process_line. rewrite Hb.
  destruct (close_blocks (indent_of line) st) as [st1|e] eqn:Hcl.
  - destruct (skip_current_block st1) eqn:Hs.
    + left. eauto.
    + right. left. exists st1. split; [reflexivity|].
      rewrite Hc. unfold dispatch. simpl.
      unfold handle_else.
      rewrite (close_loop_else_not_allowed _ _ _ _ Hcl). reflexivity.
  - right. right. eauto.
Qed.

(* ===================================================================== *)
(** * Strings and patterns *)
(* ===================================================================== *)

Lemma app_cons (c : ascii) (a b : string) :
  String c a +:+ b = String c (a +:+ b).
Proof. reflexivity. Qed.

Lemma app_empty (b : string) : "" +:+ b = b.
Proof. reflexivity. Qed.

Lemma app_empty_r (a : string) : a +:+ "" = a.
Proof. induction a as [|c a IH]; [reflexivity|]. rewrite app_cons, IH. reflexivity. Qed.

Lemma app_length (a b : string) :
  String.length (a +:+ b) = String.length a + String.length b.
Proof.
  induction a as [|c a IH]; [reflexivity|].
  rewrite app_cons. simpl. rewrite IH. reflexivity.
Qed.

(** What a greedy repetition takes satisfies the class. *)
Lemma span_all p s a b : span p s = (a, b) -> all_chars p a = true.
Proof.
  revert a b. induction s as [|c s IH]; simpl; intros a b H.
  - inversion H. reflexivity.
  - destruct (p c) eqn:Hp.
    + destruct (span p s) as [a' b'] eqn:Hs. inversion H; subst. simpl.
      rewrite Hp. apply (IH _ _ eq_refl).
    + inversion H. reflexivity.
Qed.

(** A greedy repetition takes a run of the class up to the first
    character outside it. *)
Lemma span_app p a b :
  all_chars p a = true ->
  match b with EmptyString => True | String c _ => p c = false end ->
  span p (a +:+ b) = (a, b).
Proof.
  intros Ha Hb. induction a as [|c a IH].
  - rewrite app_empty. destruct b as [|c b]; [reflexivity|].
    simpl. rewrite Hb. reflexivity.
  - rewrite app_cons. simpl in *. apply andb_prop in Ha as [Hc Ha].
    rewrite Hc, (IH Ha). reflexivity.
Qed.

Lemma literal_app lit s : Re.literal lit (lit +:+ s) = Some s.
Proof.
  induction lit as [|c lit IH]; [reflexivity|].
  rewrite app_cons. simpl. rewrite Ascii.eqb_refl. exact IH.
Qed.

(** Past the end of an occurrence nothing is left to substitute. *)
Lemma sub_var_from_skip repl k s :
  String.length s <= k -> Re.sub_var_from repl k s = "".
Proof.
  revert k. induction s as [|c s IH]; intros k H; [reflexivity|].
  simpl in *. destruct k as [|k]; [lia|]. apply IH. lia.
Qed.

Lemma findall_attr_from_skip k s :
  String.length s <= k -> Re.findall_attr_from k s = [].
Proof.
  revert k. induction s as [|c s IH]; intros k H; [reflexivity|].
  simpl in *. destruct k as [|k]; [lia|]. apply IH. lia.
Qed.

(** A lone reference to a well-formed name is replaced by what the store
    gives for the name. *)
Lemma interpolate_reference (vars : store) (name : string) :
  name <> "" -> all_chars is_word name = true ->
  interpolate_variables vars ("${" +:+ name +:+ "}") = replace_var vars name.
Proof.
  intros Hne Hw.
  assert (Hv : Re.var_ref_at ("${" +:+ name +:+ "}")
               = Some (name, String.length name + 3)).
  { unfold Re.var_ref_at. rewrite literal_app.
    rewrite (span_app is_word name "}" Hw eq_refl).
    destruct name as [|c w]; [congruence|]. reflexivity. }
  unfold interpolate_variables, Re.sub_var.
  change ("${" +:+ name +:+ "}") with (String "$" ("{" +:+ name +:+ "}")) in *.
  cbn [Re.sub_var_from]. rewrite Hv.
  rewrite sub_var_from_skip.
  - apply app_empty_r.
  - rewrite !app_length. simpl. lia.
Qed.

(** The name a [set] line assigns to is a non-empty run of word
    characters. *)
Lemma set_match_name arg var_name expr :
  Re.set_match arg = Some (var_name, expr) ->
  var_name <> "" /\ all_chars is_word var_name = true.
Proof.
  unfold Re.set_match. destruct (span is_word arg) as [w r] eqn:Hs.
  destruct w as [|c w]; [discriminate|].
  destruct (lstrip r) as [|e r']; [discriminate|].
  destruct (is_char "=" e); [|discriminate].
  destruct (Re.spaces_dot_plus_semi r'); [|discriminate].
  intros H. inversion H; subst. split; [discriminate|].
  apply (span_all _ _ _ _ Hs).
Qed.

(** A bare-token attribute, whatever its key and token, is parsed to the
    empty string. *)
Lemma bare_attribute_parsed_empty (key tok : string) :
  key <> "" -> all_chars is_word key = true ->
  tok <> "" -> all_chars Re.is_bare tok = true ->
  parse_attributes (key +:+ "=" +:+ tok) = [(key, "")].
Proof.
  intros Hk Hkw Ht Htb.
  assert (Ha : Re.attr_at (key +:+ "=" +:+ tok)
               = Some (key, None, Some tok,
                       String.length key + 1 + String.length tok)).
  { unfold Re.attr_at.
    rewrite (span_app is_word key ("=" +:+ tok) Hkw eq_refl).
    destruct key as [|k ks]; [congruence|].
    destruct tok as [|b bs]; [congruence|].
    rewrite app_cons, app_empty. cbn [is_char Ascii.eqb Bool.eqb].
    assert (Hb : is_char dq_char b = false).
    { simpl in Htb. apply andb_prop in Htb as [Hb _].
      unfold Re.is_bare, Re.not_dq in Hb.
      destruct (is_char dq_char b); [discriminate | reflexivity]. }
    rewrite Hb.
    rewrite <- (app_empty_r (String b bs)) at 1.
    rewrite (span_app Re.is_bare (String b bs) "" Htb I). reflexivity. }
  unfold parse_attributes.
  destruct key as [|k ks]; [congruence|].
  rewrite app_cons in *. cbn [String.eqb].
  unfold Re.findall_attr. cbn [Re.findall_attr_from]. rewrite Ha.
  rewrite findall_attr_from_skip; [reflexivity|].
  rewrite !app_length. simpl. lia.
Qed.

(* ===================================================================== *)
(** * The [set] command and interpolation *)
(* ===================================================================== *)

(** C10.  When the expression of a [set] line is not a string, boolean or
    number literal and its restricted evaluation raises one of the caught
    exceptions, the command succeeds, prints a warning, emits nothing and
    stores None under the name; a reference to the name is then replaced
    by the text None.  The UNDEFINED_VAR_ sentinel replaces a reference
    exactly when the store has no entry for the referenced name. *)
Theorem failed_set_interpolates_None (h : host) (line_no indent : nat)
    (trimmed_line arg var_name expr : string) (st : interp) (vars' : store) :
  Re.set_match arg = Some (var_name, expr) ->
  startswith dq (strip expr) && endswith dq (strip expr) = false ->
  String.eqb (lower (strip expr)) "true"
    || String.eqb (lower (strip expr)) "false" = false ->
  Re.number_match (strip expr) = false ->
  py_eval h (strip expr) (variables st) = (EvalCaught, vars') ->
  exists st',
    dispatch h line_no indent trimmed_line "set" arg st = Ok st'
    /\ variables st' = <[var_name := VNone]> vars'
    /\ interpolate_variables (variables st') ("${" +:+ var_name +:+ "}")
       = "None"
    /\ html_output_buffer st' = html_output_buffer st
    /\ stdout st'
       = stdout st ++ ["Warning: Could not evaluate expression for '"
                       +:+ var_name +:+ "': '" +:+ strip expr +:+ "'"]
    /\ forall other,
        other <> "" -> all_chars is_word other = true ->
        interpolate_variables (variables st') ("${" +:+ other +:+ "}")
        = match variables st' !! other with
          | Some v => py_str v
          | None => "UNDEFINED_VAR_" +:+ other
          end.
Proof.
  intros Hm Hs Hb Hn He.
  destruct (set_match_name _ _ _ Hm) as [Hne Hw].
  eexists. split.
  { change (dispatch h line_no indent trimmed_line "set" arg st)
      with (handle_set h arg st).
    unfold handle_set. rewrite Hm, Hs, Hb, Hn, He. reflexivity. }
  simpl. repeat split.
  - rewrite (interpolate_reference _ _ Hne Hw). unfold replace_var.
    rewrite lookup_insert_eq. reflexivity.
  - intros other Ho Hwo. apply (interpolate_reference _ _ Ho Hwo).
Qed.

Lemma failed_set_interpolates_None_witness :
  exists st',
    dispatch plain_host 3 0 "set x = y + 1;" "set" "x = y + 1;"
      (initial_state banner) = Ok st'
    /\ variables st' = <["x" := VNone]> ∅
    /\ interpolate_variables (variables st') "${x}" = "None"
    /\ html_output_buffer st' = []
    /\ stdout st'
       = banner ++ ["Warning: Could not evaluate expression for 'x': 'y + 1'"]
    /\ forall other,
        other <> "" -> all_chars is_word other = true ->
        interpolate_variables (variables st') ("${" +:+ other +:+ "}")
        = match variables st' !! other with
          | Some v => py_str v
          | None => "UNDEFINED_VAR_" +:+ other
          end.
Proof.
  apply (failed_set_interpolates_None plain_host 3 0 "set x = y + 1;"
           "x = y + 1;" "x" "y + 1" (initial_state banner) ∅);
    reflexivity.
Defined.

(* ===================================================================== *)
(** * Fatal errors *)
(* ===================================================================== *)

(** Every structural error makes the dispatcher raise a [ValueError]
    carrying the error's message. *)
Lemma structural_error_raises (h : host) (line_no indent : nat)
    (trimmed_line command arg msg : string) (st : interp) :
  structural_error st indent command arg msg ->
  dispatch h line_no indent trimmed_line command arg st
  = Raise (ValueError msg).
Proof.
  intros H.
  destruct H;
    repeat match goal with
           | H : _ = _ |- _ => revert H
           end;
    unfold dispatch; cbn [String.eqb Ascii.eqb Bool.eqb];
    unfold handle_item, handle_card_part, handle_else, handle_output_html,
      handle_set, handle_page, handle_section, handle_heading, handle_simple,
      handle_link, handle_list, handle_card;
    intros; repeat match goal with
                   | H : _ = _ |- _ => rewrite H
                   end; reflexivity.
Qed.

(** An [item] with no [list] frame anywhere on the block stack is not
    directly inside a list. *)
Lemma item_outside_any_list (st : interp) :
  Forall (fun f => command_type f <> BList) (block_stack st) ->
  not_directly_inside BList st = true.
Proof.
  unfold not_directly_inside. intros H.
  destruct (block_stack st) as [|top rest]; [reflexivity|].
  inversion H as [|? ? Htop _]; subst.
  destruct (command_type top); try reflexivity. congruence.
Qed.

(** The line loop over a script cut in two. *)
Lemma run_lines_app (h : host) (pre post : list string) (idx : nat)
    (st : interp) :
  run_lines h idx (pre ++ post) st
  = match run_lines h idx pre st with
    | Continue st' => run_lines h (idx + List.length pre) post st'
    | stop => stop
    end.
Proof.
  revert idx st. induction pre as [|l pre IH]; intros idx st; simpl.
  - rewrite Nat.add_0_r. reflexivity.
  - destruct (process_line h idx l st); try reflexivity.
    rewrite IH. replace (S idx + List.length pre) with (idx + S (List.length pre))
      by lia. reflexivity.
Qed.

(** C8.  When the line at position [i] of the script body (line [i + 3]
    of the file) is reached, is not skipped, and its command is a
    structural error, the run exits: the last diagnostic printed is the
    error with that 1-based line number, and the run does not end in
    [Written], so no output file is written. *)
Theorem structural_error_aborts (h : host) (filepath first second : string)
    (body : list string) (i : nat) (line command group2 msg : string)
    (st0 st1 : interp) :
  strip first = "psload" ->
  strip second = "psstart" ->
  body !! i = Some line ->
  run_lines h 2 (take i body) (initial_state (startup_output filepath))
  = Continue st0 ->
  is_comment_or_blank (strip line) = false ->
  close_blocks (indent_of line) st0 = Ok st1 ->
  skip_current_block st1 = false ->
  Re.command_match (strip line) = Some (command, group2) ->
  structural_error st1 (indent_of line) command (argument_of group2) msg ->
  execute_psu_script h filepath (first :: second :: body)
  = Exited (stdout st1 ++ [error_on_line (i + 3) msg]).
Proof.
  intros Hf Hs Hi Hrun Hb Hc Hk Hm He.
  assert (Hline : process_line h (2 + i) line st0
                  = Exit (stdout st1 ++ [error_on_line (i + 3) msg])).
  { unfold process_line. rewrite Hb, Hc, Hk, Hm.
    rewrite (structural_error_raises _ _ _ _ _ _ _ _ He).
    replace (2 + i + 1) with (i + 3) by lia. reflexivity. }
  unfold execute_psu_script, interpret. rewrite Hf, Hs. simpl.
  rewrite <- (take_drop_middle body i line Hi).
  rewrite run_lines_app.
  fold (startup_output filepath). rewrite Hrun.
  rewrite length_take_le
    by (apply Nat.lt_le_incl, (lookup_lt_Some body i line Hi)).
  simpl. simpl in Hline. rewrite Hline. reflexivity.
Qed.

Lemma structural_error_aborts_witness :
  execute_psu_script plain_host "a.psu"
    (ln "psload" :: ln "psstart"
       :: [ln ("paragraph " +:+ quoted "p" +:+ ":");
           ln ("item " +:+ quoted "x" +:+ ":")])
  = Exited (stdout state_after_paragraph
            ++ [error_on_line (1 + 3)
                  "`item` command must be directly inside a `list` block."]).
Proof.
  apply (structural_error_aborts plain_host "a.psu" (ln "psload")
           (ln "psstart") _ 1 (ln ("item " +:+ quoted "x" +:+ ":"))
           "item" (quoted "x" +:+ ":") _
           state_after_paragraph state_after_paragraph);
    try (vm_compute; reflexivity).
  apply item_outside_list. reflexivity.
Defined.

(** The argument grammar of [heading]: the word [level=], a run of
    digits, a blank and a non-empty quoted text are accepted, with the
    digits and the text as the two groups. *)
Lemma heading_match_grammar (digits text : string) :
  digits <> "" -> all_chars is_digit digits = true ->
  text <> "" -> all_chars Re.not_dq text = true ->
  Re.heading_match ("level=" +:+ digits +:+ " " +:+ quoted text)
  = Some (digits, text, "").
Proof.
  intros Hd Hds Ht Hts. unfold Re.heading_match.
  rewrite literal_app.
  rewrite (span_app is_digit digits (" " +:+ quoted text) Hds eq_refl).
  destruct digits as [|d ds]; [congruence|].
  unfold quoted. rewrite !app_cons, !app_empty.
  unfold Re.quoted_then_rest, Re.quoted_at.
  change (lstrip (String " " (dq +:+ text +:+ dq)))
    with (String dq_char (text +:+ dq)).
  change (is_char dq_char dq_char) with true. cbn iota.
  rewrite (span_app Re.not_dq text dq Hts eq_refl).
  destruct text as [|c t]; [congruence|]. reflexivity.
Qed.

(** C9.  A [heading] line that is reached, is not skipped and whose
    arguments match the heading pattern with level digits [digits]: when
    the level is outside 1..6 the run exits with the level error and the
    1-based line number; when it is inside, the line loop goes on with
    exactly one line appended to the output buffer, the [hN] element with
    the rendered attributes and the interpolated text. *)
Theorem heading_level_checked (h : host) (idx : nat)
    (line group2 digits text rest : string) (st st1 : interp) :
  is_comment_or_blank (strip line) = false ->
  close_blocks (indent_of line) st = Ok st1 ->
  skip_current_block st1 = false ->
  Re.command_match (strip line) = Some ("heading", group2) ->
  Re.heading_match (argument_of group2) = Some (digits, text, rest) ->
  let level := int_of_digits digits in
  let attr_str_html :=
    render_attrs (variables st1) (parse_attributes (strip rest)) in
  ((level < 1 \/ 6 < level)%Z ->
   process_line h idx line st
   = Exit (stdout st1
           ++ [error_on_line (idx + 1)
                 "Heading level must be between 1 and 6."]))
  /\ ((1 <= level <= 6)%Z ->
      exists st2,
        process_line h idx line st = Continue st2
        /\ html_output_buffer st2
           = html_output_buffer st1
             ++ [get_html_indent st1
                 +:+ ("<h" +:+ str_int level +:+ " " +:+ attr_str_html +:+ ">"
                      +:+ interpolate_variables (variables st1) text
                      +:+ "</h" +:+ str_int level +:+ ">")]
        /\ block_stack st2 = block_stack st1
        /\ stdout st2 = stdout st1).
Proof.
  intros Hb Hc Hk Hm Hh level attr_str_html.
  assert (E : process_line h idx line st
              = match handle_heading (argument_of group2) st1 with
                | Ok st2 => Continue st2
                | Raise (ValueError msg) =>
                    Exit (stdout st1 ++ [error_on_line (idx + 1) msg])
                | Raise (OtherException msg) =>
                    Exit (stdout st1 ++ [unhandled_on_line (idx + 1) msg])
                end).
  { unfold process_line. rewrite Hb, Hc, Hk, Hm. reflexivity. }
  rewrite E. unfold handle_heading. rewrite Hh. fold level.
  split.
  - intros Hout.
    replace ((1 <=? level)%Z && (level <=? 6)%Z) with false; [reflexivity|].
    symmetry. apply andb_false_iff.
    destruct Hout; [left; apply Z.leb_gt | right; apply Z.leb_gt]; lia.
  - intros [Hlo Hhi].
    replace ((1 <=? level)%Z && (level <=? 6)%Z) with true.
    + eexists. split; [reflexivity|]. repeat split.
    + symmetry. apply andb_true_iff. split; apply Z.leb_le; lia.
Qed.

Lemma heading_level_checked_witness :
  (process_line plain_host 2
     (ln ("heading level=7 " +:+ quoted "T")) (initial_state banner)
   = Exit (banner ++ ["Error on line 3: Heading level must be between 1 and 6."]))
  /\ (exists st2,
        process_line plain_host 2
          (ln ("heading level=3 " +:+ quoted "T")) (initial_state banner)
        = Continue st2
        /\ html_output_buffer st2 = ["<h3 >T</h3>"]).
Proof.
  split.
  - apply (heading_level_checked plain_host 2
             (ln ("heading level=7 " +:+ quoted "T"))
             ("level=7 " +:+ quoted "T") "7" "T" ""
             (initial_state banner) (initial_state banner));
      try reflexivity.
    right. reflexivity.
  - destruct (heading_level_checked plain_host 2
               (ln ("heading level=3 " +:+ quoted "T"))
               ("level=3 " +:+ quoted "T") "3" "T" ""
               (initial_state banner) (initial_state banner)
               eq_refl eq_refl eq_refl eq_refl eq_refl) as [_ Hin].
    destruct Hin as [st2 [Hp [Hbuf _]]]; [split; discriminate|].
    exists st2. split; [exact Hp | exact Hbuf].
Defined.

(* ===================================================================== *)
(** * The closing pass on consistent states *)
(* ===================================================================== *)

Lemma grows_refl st : grows st st.
Proof. split; reflexivity. Qed.

Lemma grows_trans st1 st2 st3 : grows st1 st2 -> grows st2 st3 -> grows st1 st3.
Proof. intros [A B] [C D]. split; etransitivity; eassumption. Qed.

Lemma pop_tag_if_fields tag st :
  html_output_buffer (pop_tag_if tag st) = html_output_buffer st
  /\ stdout (pop_tag_if tag st) = stdout st
  /\ block_stack (pop_tag_if tag st) = block_stack st
  /\ if_conditions_met_stack (pop_tag_if tag st) = if_conditions_met_stack st
  /\ skip_current_block (pop_tag_if tag st) = skip_current_block st
  /\ variables (pop_tag_if tag st) = variables st
  /\ output_filename (pop_tag_if tag st) = output_filename st.
Proof.
  unfold pop_tag_if. destruct (html_tag_stack st) as [|top rest];
    [|destruct (String.eqb top tag)]; repeat split.
Qed.

(** One closing step on a frame of a consistent stack succeeds, touches
    neither the block stack, the store nor the file name, pops one
    condition result exactly when the frame is an [if], and only appends
    to the output. *)
Lemma close_block_consistent f st :
  frame_ok f ->
  (command_type f = BIf -> if_conditions_met_stack st <> []) ->
  exists st',
    close_block f st = Ok st'
    /\ block_stack st' = block_stack st
    /\ variables st' = variables st
    /\ output_filename st' = output_filename st
    /\ grows st st'
    /\ List.length (if_conditions_met_stack st')
       + (if cmd_type_eqb (command_type f) BIf then 1 else 0)
       = List.length (if_conditions_met_stack st).
Proof.
  intros Hok Hif. unfold close_block, frame_ok in *.
  assert (Htagged : forall tag,
    exists st',
      Ok (st |> append_html_line ("</" +:+ tag +:+ ">") |> pop_tag_if tag)
      = Ok st'
      /\ block_stack st' = block_stack st
      /\ variables st' = variables st
      /\ output_filename st' = output_filename st
      /\ grows st st'
      /\ List.length (if_conditions_met_stack st') + 0
         = List.length (if_conditions_met_stack st)).
  { intros tag. eexists. split; [reflexivity|].
    destruct (pop_tag_if_fields tag
                (append_html_line ("</" +:+ tag +:+ ">") st))
      as (B & O & K & I & _ & V & F).
    rewrite K, V, F, I. unfold grows. rewrite B, O. simpl.
    repeat split; try lia; [apply prefix_app_r|]; reflexivity. }
  destruct (command_type f) eqn:Hk; simpl.
  - eexists. split; [reflexivity|]. unfold grows. simpl.
    repeat split; try lia; [|reflexivity].
    rewrite <- app_assoc. apply prefix_app_r. reflexivity.
  - destruct Hok as [tag Htag]. unfold close_tagged. rewrite Htag.
    apply Htagged.
  - destruct Hok as [tag Htag]. unfold close_tagged. rewrite Htag.
    apply Htagged.
  - destruct Hok as [tag Htag]. unfold close_tagged. rewrite Htag.
    apply Htagged.
  - apply (Htagged "div").
  - apply (Htagged "div").
  - apply (Htagged "div").
  - unfold close_if.
    destruct (if_conditions_met_stack st) as [|c rest] eqn:Hs;
      [exfalso; apply Hif; reflexivity|].
    eexists. split; [reflexivity|]. unfold grows. simpl.
    repeat split; simpl; try lia; reflexivity.
  - eexists. split; [reflexivity|]. unfold grows.
    repeat split; simpl; try lia; reflexivity.
Qed.

(** The closing pass on a consistent stack succeeds; what is left on the
    stack is a suffix of the old stack whose top was recorded at a smaller
    indentation than the line's, and the state stays consistent. *)
Lemma close_loop_consistent n frames st :
  Forall frame_ok frames ->
  List.length (if_conditions_met_stack st) = count_if frames ->
  exists st',
    close_loop n frames st = Ok st'
    /\ block_stack st' `suffix_of` frames
    /\ match block_stack st' with
       | [] => True
       | top :: _ => indent_level top < n
       end
    /\ consistent st'
    /\ variables st' = variables st
    /\ output_filename st' = output_filename st
    /\ grows st st'.
Proof.
  intros Hok. revert st.
  induction Hok as [|f rest Hf Hrest IH]; intros st Hlen; simpl.
  - eexists. split; [reflexivity|]. simpl.
    repeat split; try reflexivity; auto.
  - destruct (n <=? indent_level f) eqn:Hle.
    + destruct (close_block_consistent f (set_block_stack rest st) Hf)
        as (st1 & Hc & Hb & Hv & Ho & Hg & Hl).
      { simpl. intros Hk Hnil. rewrite Hnil in Hlen. simpl in Hlen.
        rewrite Hk in Hlen. simpl in Hlen. lia. }
      rewrite Hc. simpl.
      destruct (IH st1) as (st' & Hc' & Hs & Ht & Hcons & Hv' & Ho' & Hg').
      { simpl in Hl, Hlen. lia. }
      exists st'. split; [exact Hc'|].
      split; [apply suffix_cons_r; exact Hs|].
      split; [exact Ht|]. split; [exact Hcons|].
      split; [rewrite Hv', Hv; reflexivity|].
      split; [rewrite Ho', Ho; reflexivity|].
      eapply grows_trans; [|exact Hg']. exact Hg.
    + eexists. split; [reflexivity|]. simpl.
      apply Nat.leb_gt in Hle.
      repeat split; try reflexivity; auto.
      simpl. constructor; assumption.
Qed.

(** The final clean-up on a consistent stack succeeds and only appends to
    the output buffer. *)
Lemma final_loop_consistent frames st :
  Forall frame_ok frames ->
  exists st',
    final_loop frames st = Ok st'
    /\ block_stack st' = []
    /\ variables st' = variables st
    /\ output_filename st' = output_filename st
    /\ stdout st' = stdout st
    /\ html_output_buffer st `prefix_of` html_output_buffer st'.
Proof.
  intros Hok. revert st.
  induction Hok as [|f rest Hf Hrest IH]; intros st; simpl.
  - eexists. split; [reflexivity|]. repeat split; reflexivity.
  - assert (Hstep : exists st1,
      final_close_block f (set_block_stack rest st) = Ok st1
      /\ variables st1 = variables st
      /\ output_filename st1 = output_filename st
      /\ stdout st1 = stdout st
      /\ html_output_buffer st `prefix_of` html_output_buffer st1).
    { assert (Htagged : forall tag, exists st1,
        Ok (set_block_stack rest st
              |> append_html_line ("</" +:+ tag +:+ ">") |> pop_tag_if tag)
        = Ok st1
        /\ variables st1 = variables st
        /\ output_filename st1 = output_filename st
        /\ stdout st1 = stdout st
        /\ html_output_buffer st `prefix_of` html_output_buffer st1).
      { intros tag. eexists. split; [reflexivity|].
        destruct (pop_tag_if_fields tag
                    (append_html_line ("</" +:+ tag +:+ ">")
                       (set_block_stack rest st)))
          as (B & O & _ & _ & _ & V & F).
        rewrite V, F, O, B. simpl.
        repeat split. apply prefix_app_r. reflexivity. }
      unfold final_close_block, frame_ok, close_tagged, close_div in *.
      destruct (command_type f);
        try match type of Hf with
            | is_Some _ =>
                let tag := fresh "tag" in
                destruct Hf as [tag Htag]; rewrite Htag; apply Htagged
            end;
        try apply (Htagged "div");
        (eexists; split; [reflexivity|]; repeat split; reflexivity). }
    destruct Hstep as (st1 & Hc & Hv & Ho & Hs & Hp).
    rewrite Hc. simpl.
    destruct (IH st1) as (st' & Hc' & Hb' & Hv' & Ho' & Hs' & Hp').
    exists st'. split; [exact Hc'|]. split; [exact Hb'|].
    split; [congruence|]. split; [congruence|]. split; [congruence|].
    etransitivity; eassumption.
Qed.

(* ===================================================================== *)
(** * What a command does to the state *)
(* ===================================================================== *)

(** Case analysis on the test at the head of a handler's result. *)
Ltac head_case H :=
  cbv beta zeta in H;
  match type of H with
  | match ?x with _ => _ end = _ => destruct x eqn:?
  end.

Ltac solve_prefix :=
  first [ reflexivity
        | rewrite <- ?app_assoc; apply prefix_app_r; reflexivity ].

Ltac solve_dispatched :=
  unfold dispatched, grows, head_line;
  repeat match goal with
         | |- context [dict_get ?k ?d] => destruct (dict_get k d)
         end;
  simpl;
  (split; [split; solve_prefix|]);
  first [ left; split;
          [ reflexivity
          | try match goal with
                | E : if_conditions_met_stack _ = _ |- _ => rewrite E
                end; reflexivity ]
        | right; eexists; (split; [reflexivity|]);
          (split; [reflexivity|]); (split; [|reflexivity]);
          unfold frame_ok; simpl; eauto ].

Ltac handler H :=
  unfold handle_output_html, handle_set, handle_page, handle_meta_info,
    handle_section, handle_container, handle_heading, handle_item,
    handle_simple, handle_link, handle_list, handle_card, handle_card_part,
    handle_if, handle_else, handle_loop, handle_unknown in H;
  repeat head_case H; try discriminate H;
  inversion H; subst; clear H.

Lemma dispatch_shape (h : host) (line_no indent : nat)
    (trimmed_line command arg : string) (st st' : interp) :
  dispatch h line_no indent trimmed_line command arg st = Ok st' ->
  dispatched indent st st'.
Proof.
  unfold dispatch.
  repeat match goal with
         | |- (if String.eqb command ?s then _ else _) = _ -> _ =>
             destruct (String.eqb command s);
             [intros H; handler H; solve_dispatched|]
         end.
  intros H; handler H; solve_dispatched.
Qed.

(* ===================================================================== *)
(** * Invariants along a run *)
(* ===================================================================== *)

Lemma decreasing_suffix (l l' : list frame) :
  l' `suffix_of` l -> decreasing l -> decreasing l'.
Proof.
  intros [k ->]. induction k as [|a k IH]; [tauto|].
  intros [_ H]. apply IH, H.
Qed.

Lemma initial_state_consistent out : consistent (initial_state out).
Proof. split; [constructor | reflexivity]. Qed.

(** One line, from a consistent state: the line loop goes on in a state
    that is again consistent, in which the output has only grown and the
    block stack is still ordered if it was; or the run exits.  No
    exception escapes. *)
Lemma process_line_consistent (h : host) (idx : nat) (line : string)
    (st : interp) :
  consistent st ->
  (exists st',
      process_line h idx line st = Continue st'
      /\ consistent st'
      /\ grows st st'
      /\ (decreasing (block_stack st) -> decreasing (block_stack st')))
  \/ (exists out, process_line h idx line st = Exit out).
Proof.
  intros [Hok Hlen]. unfold process_line.
  destruct (is_comment_or_blank (strip line)).
  { left. exists st. split; [reflexivity|]. split; [split; assumption|].
    split; [apply grows_refl | auto]. }
  destruct (close_loop_consistent (indent_of line) (block_stack st) st
              Hok Hlen)
    as (st1 & Hc & Hsuf & Htop & Hcons & _ & _ & Hg).
  unfold close_blocks. rewrite Hc.
  destruct (skip_current_block st1).
  { left. exists st1. split; [reflexivity|]. split; [exact Hcons|].
    split; [exact Hg|]. apply decreasing_suffix, Hsuf. }
  destruct (Re.command_match (strip line)) as [[command group2]|];
    [|right; eauto].
  destruct (dispatch h (idx + 1) (indent_of line) (strip line) command
              (argument_of group2) st1) as [st2|[msg|msg]] eqn:Hd;
    [|right; eauto|right; eauto].
  left. exists st2. split; [reflexivity|].
  destruct (dispatch_shape _ _ _ _ _ _ _ _ Hd) as [Hg2 Hshape].
  destruct Hcons as [Hok1 Hlen1].
  destruct Hshape as [[Hb Hl] | (f & Hb & Hi & Hf & Hl)].
  - split; [split; [rewrite Hb; exact Hok1 | rewrite Hb, Hl; exact Hlen1]|].
    split; [eapply grows_trans; eassumption|].
    rewrite Hb. apply decreasing_suffix, Hsuf.
  - split; [split|].
    + rewrite Hb. constructor; assumption.
    + rewrite Hb, Hl. simpl. rewrite Hlen1. reflexivity.
    + split; [eapply grows_trans; eassumption|].
      intros Hdec. rewrite Hb. simpl. split.
      * destruct (block_stack st1); [exact I | lia].
      * apply (decreasing_suffix _ _ Hsuf Hdec).
Qed.

Lemma run_lines_consistent (h : host) (lines : list string) (idx : nat)
    (st : interp) :
  consistent st ->
  (exists st',
      run_lines h idx lines st = Continue st'
      /\ consistent st'
      /\ grows st st'
      /\ (decreasing (block_stack st) -> decreasing (block_stack st')))
  \/ (exists out, run_lines h idx lines st = Exit out).
Proof.
  revert idx st. induction lines as [|line rest IH]; intros idx st Hc; simpl.
  - left. exists st. split; [reflexivity|]. split; [exact Hc|].
    split; [apply grows_refl | auto].
  - destruct (process_line_consistent h idx line st Hc)
      as [(st1 & Hp & Hc1 & Hg1 & Hd1) | (out & Hp)]; rewrite Hp;
      [|right; eauto].
    destruct (IH (S idx) st1 Hc1) as [(st' & Hr & Hc' & Hg' & Hd') | Hex];
      [|right; exact Hex].
    left. exists st'. split; [exact Hr|]. split; [exact Hc'|].
    split; [eapply grows_trans; eassumption | auto].
Qed.

(** X1.  No run ends in an uncaught exception: whatever the script, the
    closing pass and the final clean-up never fail to find the condition
    result or the tag they pop, so a run either exits with a diagnostic
    or writes its output. *)
Theorem run_never_crashes (h : host) (filepath : string)
    (lines : list string) :
  (exists out, execute_psu_script h filepath lines = Exited out)
  \/ (exists filename content out,
         execute_psu_script h filepath lines = Written filename content out).
Proof.
  unfold execute_psu_script, interpret.
  destruct lines as [|first [|second body]]; try (left; eauto; fail).
  - destruct (negb _); left; eauto.
  - destruct (negb (String.eqb (strip first) "psload")); [left; eauto|].
    destruct (negb (String.eqb (strip second) "psstart")); [left; eauto|].
    match goal with
    | |- context [run_lines h 2 body ?s0] =>
        destruct (run_lines_consistent h body 2 s0
                    (initial_state_consistent _))
          as [(st & Hr & [Hok _] & _) | (o & Hr)]; rewrite Hr
    end; [|left; eauto].
    destruct (final_loop_consistent (block_stack st) st Hok)
      as (st' & Hf & _).
    unfold final_cleanup. rewrite Hf. right. eauto.
Qed.

(** X2.  The block stack stays ordered: along the line loop, from a
    consistent state whose frames were recorded at strictly decreasing
    indentations from the top down, every state reached has the same
    ordering. *)
Theorem block_stack_stays_ordered (h : host) (lines : list string) (idx : nat)
    (st st' : interp) :
  consistent st ->
  decreasing (block_stack st) ->
  run_lines h idx lines st = Continue st' ->
  decreasing (block_stack st').
Proof.
  intros Hc Hd Hr.
  destruct (run_lines_consistent h lines idx st Hc)
    as [(st1 & Hr1 & _ & _ & Hd1) | (out & Hr1)];
    rewrite Hr1 in Hr; [|discriminate].
  inversion Hr; subst. auto.
Qed.

(** X3.  The stack of condition results and the block stack stay in
    step: along the line loop, from a consistent state, every state
    reached has one condition result per open [if] frame, and every
    [section], [container] and [list] frame carries its tag. *)
Theorem if_stack_matches_if_frames (h : host) (lines : list string)
    (idx : nat) (st st' : interp) :
  consistent st ->
  run_lines h idx lines st = Continue st' ->
  List.length (if_conditions_met_stack st') = count_if (block_stack st')
  /\ Forall frame_ok (block_stack st').
Proof.
  intros Hc Hr.
  destruct (run_lines_consistent h lines idx st Hc)
    as [(st1 & Hr1 & [Hok Hlen] & _) | (out & Hr1)];
    rewrite Hr1 in Hr; [|discriminate].
  inversion Hr; subst. auto.
Qed.

(** X4.  The output buffer and the printed diagnostics are append-only:
    along the line loop, from a consistent state, what was emitted or
    printed before is a prefix of what is there afterwards. *)
Theorem output_is_append_only (h : host) (lines : list string) (idx : nat)
    (st st' : interp) :
  consistent st ->
  run_lines h idx lines st = Continue st' ->
  html_output_buffer st `prefix_of` html_output_buffer st'
  /\ stdout st `prefix_of` stdout st'.
Proof.
  intros Hc Hr.
  destruct (run_lines_consistent h lines idx st Hc)
    as [(st1 & Hr1 & _ & Hg & _) | (out & Hr1)];
    rewrite Hr1 in Hr; [|discriminate].
  inversion Hr; subst. exact Hg.
Qed.

Lemma block_stack_stays_ordered_witness :
  exists st',
    run_lines plain_host 2 nested_body (initial_state banner) = Continue st'
    /\ decreasing (block_stack st').
Proof.
  eexists. split; [vm_compute; reflexivity|].
  eapply (block_stack_stays_ordered plain_host nested_body 2
            (initial_state banner)).
  - apply initial_state_consistent.
  - exact I.
  - vm_compute. reflexivity.
Defined.

Lemma if_stack_matches_if_frames_witness :
  exists st',
    run_lines plain_host 2 nested_body (initial_state banner) = Continue st'
    /\ List.length (if_conditions_met_stack st') = count_if (block_stack st')
    /\ Forall frame_ok (block_stack st').
Proof.
  eexists. split; [vm_compute; reflexivity|].
  eapply (if_stack_matches_if_frames plain_host nested_body 2
            (initial_state banner)).
  - apply initial_state_consistent.
  - vm_compute. reflexivity.
Defined.

Lemma output_is_append_only_witness :
  exists st',
    run_lines plain_host 2 nested_body (initial_state banner) = Continue st'
    /\ html_output_buffer (initial_state banner)
         `prefix_of` html_output_buffer st'
    /\ stdout (initial_state banner) `prefix_of` stdout st'.
Proof.
  eexists. split; [vm_compute; reflexivity|].
  eapply (output_is_append_only plain_host nested_body 2
            (initial_state banner)).
  - apply initial_state_consistent.
  - vm_compute. reflexivity.
Defined.

(* ===================================================================== *)
(** * What a line leaves alone *)
(* ===================================================================== *)

Ltac solve_field :=
  unfold head_line;
  repeat match goal with
         | |- context [dict_get ?k ?d] => destruct (dict_get k d)
         end;
  reflexivity.

Lemma dispatch_keeps_store (h : host) (line_no indent : nat)
    (trimmed_line command arg : string) (st st' : interp) :
  command <> "set" ->
  dispatch h line_no indent trimmed_line command arg st = Ok st' ->
  variables st' = variables st.
Proof.
  intros Hn. unfold dispatch.
  repeat match goal with
         | |- (if String.eqb command ?s then _ else _) = _ -> _ =>
             destruct (String.eqb_spec command s);
             [try congruence; intros H; handler H; solve_field|]
         end.
  intros H; handler H; solve_field.
Qed.

Lemma dispatch_keeps_filename (h : host) (line_no indent : nat)
    (trimmed_line command arg : string) (st st' : interp) :
  command <> "output_html" ->
  dispatch h line_no indent trimmed_line command arg st = Ok st' ->
  output_filename st' = output_filename st.
Proof.
  intros Hn. unfold dispatch.
  repeat match goal with
         | |- (if String.eqb command ?s then _ else _) = _ -> _ =>
             destruct (String.eqb_spec command s);
             [try congruence; intros H; handler H; solve_field|]
         end.
  intros H; handler H; solve_field.
Qed.

(** X5.  Only [set] writes the variable store: a line whose command word
    is not [set], processed from a consistent state, leaves every
    variable as it was. *)
Theorem only_set_changes_variables (h : host) (idx : nat) (line : string)
    (st st' : interp) :
  consistent st ->
  (forall group2, Re.command_match (strip line) <> Some ("set", group2)) ->
  process_line h idx line st = Continue st' ->
  variables st' = variables st.
Proof.
  intros [Hok Hlen] Hns. unfold process_line.
  destruct (is_comment_or_blank (strip line));
    [intros H; inversion H; reflexivity|].
  destruct (close_loop_consistent (indent_of line) (block_stack st) st
              Hok Hlen) as (st1 & Hc & _ & _ & _ & Hv & _).
  unfold close_blocks. rewrite Hc.
  destruct (skip_current_block st1);
    [intros H; inversion H; subst; exact Hv|].
  destruct (Re.command_match (strip line)) as [[command group2]|] eqn:Hm;
    [|discriminate].
  destruct (dispatch _ _ _ _ _ _ _) as [st2|[msg|msg]] eqn:Hd;
    try discriminate.
  intros H; inversion H; subst. rewrite <- Hv.
  refine (dispatch_keeps_store _ _ _ _ _ _ _ _ _ Hd).
  intros E. apply (Hns group2). rewrite E. reflexivity.
Qed.

Lemma only_set_changes_variables_witness :
  exists st',
    process_line plain_host 3 (ln ("    paragraph " +:+ quoted "x" +:+ ":"))
      state_in_section = Continue st'
    /\ variables st' = variables state_in_section.
Proof.
  eexists. split; [vm_compute; reflexivity|].
  eapply (only_set_changes_variables plain_host 3
            (ln ("    paragraph " +:+ quoted "x" +:+ ":")) state_in_section).
  - split; [repeat constructor; eexists; reflexivity | reflexivity].
  - intros g. vm_compute. discriminate.
  - vm_compute. reflexivity.
Defined.

(** X6.  Only [output_html] sets the name of the output file: a line
    whose command word is not [output_html], processed from a consistent
    state, leaves the name as it was. *)
Theorem only_output_html_changes_filename (h : host) (idx : nat)
    (line : string) (st st' : interp) :
  consistent st ->
  (forall group2,
      Re.command_match (strip line) <> Some ("output_html", group2)) ->
  process_line h idx line st = Continue st' ->
  output_filename st' = output_filename st.
Proof.
  intros [Hok Hlen] Hns. unfold process_line.
  destruct (is_comment_or_blank (strip line));
    [intros H; inversion H; reflexivity|].
  destruct (close_loop_consistent (indent_of line) (block_stack st) st
              Hok Hlen) as (st1 & Hc & _ & _ & _ & _ & Hv & _).
  unfold close_blocks. rewrite Hc.
  destruct (skip_current_block st1);
    [intros H; inversion H; subst; exact Hv|].
  destruct (Re.command_match (strip line)) as [[command group2]|] eqn:Hm;
    [|discriminate].
  destruct (dispatch _ _ _ _ _ _ _) as [st2|[msg|msg]] eqn:Hd;
    try discriminate.
  intros H; inversion H; subst. rewrite <- Hv.
  refine (dispatch_keeps_filename _ _ _ _ _ _ _ _ _ Hd).
  intros E. apply (Hns group2). rewrite E. reflexivity.
Qed.

Lemma only_output_html_changes_filename_witness :
  exists st',
    process_line plain_host 3 (ln ("    set x = 1;")) state_in_section
    = Continue st'
    /\ output_filename st' = output_filename state_in_section.
Proof.
  eexists. split; [vm_compute; reflexivity|].
  eapply (only_output_html_changes_filename plain_host 3
            (ln ("    set x = 1;")) state_in_section).
  - split; [repeat constructor; eexists; reflexivity | reflexivity].
  - intros g. vm_compute. discriminate.
  - vm_compute. reflexivity.
Defined.

(** X7.  While the skip flag is set, a line indented deeper than the top
    frame changes nothing at all: it is neither parsed nor checked, no
    frame is popped, nothing is emitted or printed.  This is what
    suppresses the body of a false [if] and the body of a [loop]. *)
Theorem skipped_body_line_is_inert (h : host) (idx : nat) (line : string)
    (st : interp) (top : frame) (rest : list frame) :
  block_stack st = top :: rest ->
  indent_level top < indent_of line ->
  skip_current_block st = true ->
  process_line h idx line st = Continue st.
Proof.
  intros Hb Hi Hs. unfold process_line.
  destruct (is_comment_or_blank (strip line)); [reflexivity|].
  unfold close_blocks. rewrite Hb. simpl.
  replace (indent_of line <=? indent_level top) with false
    by (symmetry; apply Nat.leb_gt; exact Hi).
  simpl. rewrite Hs. rewrite <- Hb. destruct st; reflexivity.
Qed.

Lemma skipped_body_line_is_inert_witness :
  process_line plain_host 4 (ln ("    item " +:+ quoted "never checked"))
    (initial_state banner |> push_block 0 BLoop []
                          |> set_skip_current_block true)
  = Continue (initial_state banner |> push_block 0 BLoop []
                                   |> set_skip_current_block true).
Proof.
  apply (skipped_body_line_is_inert plain_host 4
           (ln ("    item " +:+ quoted "never checked"))
           (initial_state banner |> push_block 0 BLoop []
                                 |> set_skip_current_block true)
           (Frame 0 BLoop []) []).
  - reflexivity.
  - vm_compute. lia.
  - reflexivity.
Defined.

(* ===================================================================== *)
(** * Lines that are not commands, and commands that are not known *)
(* ===================================================================== *)

(** X8.  A line that is reached, is not skipped, and whose text starts
    with a character that is not a word character (and is not a comment)
    stops the run: the diagnostic names the line as malformed, with its
    1-based number and its text. *)
Theorem malformed_line_exits (h : host) (idx : nat) (line rest : string)
    (c : ascii) (st st1 : interp) :
  strip line = String c rest ->
  is_word c = false ->
  startswith ".." (strip line) = false ->
  close_blocks (indent_of line) st = Ok st1 ->
  skip_current_block st1 = false ->
  process_line h idx line st
  = Exit (stdout st1
          ++ ["Error: Malformed line " +:+ str_nat (idx + 1) +:+ ": '"
              +:+ strip line +:+ "'"]).
Proof.
  intros Hs Hw Hc Hcl Hk. unfold process_line, is_comment_or_blank.
  rewrite Hc, Hcl, Hk. rewrite Hs. simpl.
  unfold Re.command_match. simpl. rewrite Hw. reflexivity.
Qed.

Lemma malformed_line_exits_witness :
  process_line plain_host 2 (ln ("  " +:+ quoted "text" +:+ " paragraph"))
    (initial_state banner)
  = Exit (banner ++ ["Error: Malformed line 3: '" +:+ quoted "text"
                     +:+ " paragraph'"]).
Proof.
  apply (malformed_line_exits plain_host 2
           (ln ("  " +:+ quoted "text" +:+ " paragraph"))
           ("text" +:+ dq +:+ " paragraph") dq_char
           (initial_state banner) (initial_state banner));
    reflexivity.
Defined.

(** X9.  A line that is reached, is not skipped, and whose command word
    is none of the nineteen known ones does not stop the run: a warning
    with the 1-based line number and the line's text is printed, and
    nothing else changes. *)
Theorem unknown_command_warns (h : host) (idx : nat)
    (line command group2 : string) (st st1 : interp) :
  is_comment_or_blank (strip line) = false ->
  close_blocks (indent_of line) st = Ok st1 ->
  skip_current_block st1 = false ->
  Re.command_match (strip line) = Some (command, group2) ->
  ~ In command known_commands ->
  process_line h idx line st
  = Continue (print ("Warning: Unknown command or malformed syntax on line "
                     +:+ str_nat (idx + 1) +:+ ": '" +:+ strip line +:+ "'")
                st1).
Proof.
  intros Hb Hcl Hk Hm Hn. unfold process_line.
  rewrite Hb, Hcl, Hk, Hm.
  assert (Hd : dispatch h (idx + 1) (indent_of line) (strip line) command
                 (argument_of group2) st1
               = handle_unknown (idx + 1) (strip line) st1).
  { unfold dispatch.
    repeat match goal with
           | |- (if String.eqb command ?s then _ else _) = _ =>
               destruct (String.eqb_spec command s);
               [exfalso; apply Hn; subst; simpl; tauto|]
           end.
    reflexivity. }
  rewrite Hd. reflexivity.
Qed.

Lemma unknown_command_warns_witness :
  process_line plain_host 2 (ln ("Paragraph " +:+ quoted "x" +:+ ":"))
    (initial_state banner)
  = Continue
      (print ("Warning: Unknown command or malformed syntax on line "
              +:+ str_nat (2 + 1) +:+ ": '"
              +:+ strip (ln ("Paragraph " +:+ quoted "x" +:+ ":")) +:+ "'")
         (initial_state banner)).
Proof.
  apply (unknown_command_warns plain_host 2
           (ln ("Paragraph " +:+ quoted "x" +:+ ":")) "Paragraph"
           (quoted "x" +:+ ":") (initial_state banner) (initial_state banner));
    try reflexivity.
  simpl. intros H.
  repeat match type of H with
         | _ \/ _ => destruct H as [H|H]; [discriminate H|]
         end.
  exact H.
Defined.

(* ===================================================================== *)
(** * The header and the command line *)
(* ===================================================================== *)

(** X10.  An output is written only for a script whose first line is
    [psload] and whose second line is [psstart], white space around them
    apart. *)
Theorem written_needs_header (h : host) (filepath : string)
    (lines : list string) (filename content : string) (out : list string) :
  execute_psu_script h filepath lines = Written filename content out ->
  exists first second body,
    lines = first :: second :: body
    /\ strip first = "psload"
    /\ strip second = "psstart".
Proof.
  unfold execute_psu_script, interpret.
  destruct lines as [|first [|second body]]; try discriminate.
  - destruct (negb _); discriminate.
  - destruct (String.eqb_spec (strip first) "psload") as [Hf|];
      [|discriminate].
    destruct (String.eqb_spec (strip second) "psstart") as [Hs|];
      [|discriminate].
    intros _. exists first, second, body. auto.
Qed.

Lemma written_needs_header_witness :
  exists first second body,
    script_open_page = first :: second :: body
    /\ strip first = "psload"
    /\ strip second = "psstart".
Proof.
  eapply (written_needs_header plain_host "a.psu" script_open_page).
  vm_compute. reflexivity.
Defined.

(** X11.  The command-line entry point writes an output only when it was
    given a path argument whose lower-cased text ends in [.psu] and the
    file at that path could be read; the output is then that of the run
    on the lines read.  Any further arguments are ignored. *)
Theorem main_checks_arguments (h : host) (fs : string -> read_outcome)
    (argv : list string) (filename content : string) (out : list string) :
  main h fs argv = Written filename content out ->
  exists prog path more lines,
    argv = prog :: path :: more
    /\ endswith ".psu" (lower path) = true
    /\ fs path = ReadLines lines
    /\ execute_psu_script h path lines = Written filename content out.
Proof.
  unfold main, execute_psu_file.
  destruct argv as [|prog [|path more]]; try discriminate.
  destruct (endswith ".psu" (lower path)) eqn:He; [|discriminate].
  simpl. destruct (fs path) as [lines| |msg] eqn:Hfs; try discriminate.
  intros H. exists prog, path, more, lines. auto.
Qed.

Lemma main_checks_arguments_witness :
  exists prog path more lines,
    ["main.py"; "Site.PSU"; "extra"] = prog :: path :: more
    /\ endswith ".psu" (lower path) = true
    /\ (fun _ => ReadLines script_open_page) path = ReadLines lines
    /\ execute_psu_script plain_host path lines
       = Written "index.html"
           (join nl ["<!DOCTYPE html>";
                     "<html>";
                     "    <head>";
                     "            <title>T</title>";
                     "        </head>";
                     "    <body>";
                     "        <p >x</p>"])
           (["--- Starting PSU Interpreter for: Site.PSU ---";
             "`psload` and `psstart` directives validated.";
             success_line]).
Proof.
  apply (main_checks_arguments plain_host
           (fun _ => ReadLines script_open_page)
           ["main.py"; "Site.PSU"; "extra"]).
  vm_compute. reflexivity.
Defined.

(* ===================================================================== *)
(** * Interpolation *)
(* ===================================================================== *)

Lemma literal_prefix lit s r :
  Re.literal lit s = Some r -> String.prefix lit s = true.
Proof.
  revert s. induction lit as [|a lit IH]; intros s; [destruct s; reflexivity|].
  destruct s as [|b s]; simpl; [discriminate|].
  destruct (Ascii.eqb_spec a b) as [->|]; [|discriminate].
  destruct (ascii_dec b b); [apply IH | congruence].
Qed.

(** X12.  A text in which the two characters that open a reference do
    not occur is left as it is by interpolation. *)
Theorem interpolate_without_reference (vars : store) (text : string) :
  contains "${" text = false ->
  interpolate_variables vars text = text.
Proof.
  unfold interpolate_variables, Re.sub_var.
  induction text as [|c text IH]; [reflexivity|].
  intros H. cbn [contains] in H. apply orb_false_elim in H as [Hp Hc].
  cbn [Re.sub_var_from].
  destruct (Re.var_ref_at (String c text)) as [[name len]|] eqn:Hv.
  - unfold Re.var_ref_at in Hv.
    destruct (Re.literal "${" (String c text)) as [r|] eqn:Hl;
      [|discriminate].
    rewrite (literal_prefix _ _ _ Hl) in Hp. discriminate.
  - rewrite (IH Hc). reflexivity.
Qed.

Lemma interpolate_without_reference_witness :
  interpolate_variables {[ "x" := VInt 1 ]} "price: $5 {x} $ {x}"
  = "price: $5 {x} $ {x}".
Proof.
  apply (interpolate_without_reference {[ "x" := VInt 1 ]}
           "price: $5 {x} $ {x}").
  reflexivity.
Defined.

Lemma sub_var_from_skip_app repl a b :
  Re.sub_var_from repl (String.length a) (a +:+ b) = Re.sub_var_from repl 0 b.
Proof.
  induction a as [|c a IH]; [destruct b; reflexivity|].
  rewrite app_cons. simpl. exact IH.
Qed.

Lemma var_ref_at_reference name post :
  name <> "" -> all_chars is_word name = true ->
  Re.var_ref_at ("${" +:+ name +:+ "}" +:+ post)
  = Some (name, String.length name + 3).
Proof.
  intros Hne Hw. unfold Re.var_ref_at. rewrite literal_app.
  rewrite (span_app is_word name ("}" +:+ post) Hw eq_refl).
  destruct name as [|c w]; [congruence|]. reflexivity.
Qed.

(** X13.  A reference to a well-formed name, after a text without a
    dollar sign, is replaced by the stored value's text (or by the
    sentinel), inserted as it is: the text before is kept, what was
    inserted is not scanned again, and interpolation goes on behind the
    closing brace. *)
Theorem interpolate_in_context (vars : store) (pre name post : string) :
  all_chars (fun c => negb (is_char "$" c)) pre = true ->
  name <> "" -> all_chars is_word name = true ->
  interpolate_variables vars (pre +:+ "${" +:+ name +:+ "}" +:+ post)
  = pre +:+ replace_var vars name +:+ interpolate_variables vars post.
Proof.
  intros Hpre Hne Hw. unfold interpolate_variables, Re.sub_var.
  induction pre as [|c pre IH].
  - rewrite !app_empty.
    change ("${" +:+ name +:+ "}" +:+ post)
      with (String "$" ("{" +:+ name +:+ "}" +:+ post)).
    cbn [Re.sub_var_from].
    change (String "$" ("{" +:+ name +:+ "}" +:+ post))
      with ("${" +:+ name +:+ "}" +:+ post).
    rewrite (var_ref_at_reference name post Hne Hw).
    replace (String.length name + 3 - 1)
      with (String.length ("{" +:+ name +:+ "}"))
      by (rewrite !app_length; simpl; lia).
    replace ("{" +:+ name +:+ "}" +:+ post)
      with (("{" +:+ name +:+ "}") +:+ post).
    + rewrite sub_var_from_skip_app. reflexivity.
    + rewrite !app_cons, app_empty.
      f_equal. clear. induction name as [|x name IH]; [reflexivity|].
      rewrite !app_cons, IH. reflexivity.
  - cbn [all_chars] in Hpre. apply andb_prop in Hpre as [Hc Hpre].
    change (String c pre +:+ "${" +:+ name +:+ "}" +:+ post)
      with (String c (pre +:+ "${" +:+ name +:+ "}" +:+ post)).
    change (String c pre +:+ replace_var vars name
            +:+ Re.sub_var_from (replace_var vars) 0 post)
      with (String c (pre +:+ replace_var vars name
                      +:+ Re.sub_var_from (replace_var vars) 0 post)).
    cbn [Re.sub_var_from].
    assert (Hv : Re.var_ref_at
                   (String c (pre +:+ "${" +:+ name +:+ "}" +:+ post)) = None).
    { assert (He : Ascii.eqb "$" c = false)
        by (apply negb_true_iff in Hc; exact Hc).
      unfold Re.var_ref_at. cbn [Re.literal]. rewrite He. reflexivity. }
    rewrite Hv, (IH Hpre). reflexivity.
Qed.

Lemma interpolate_in_context_witness :
  interpolate_variables {[ "name" := VStr "${name}" ]}
    ("Hi " +:+ "${" +:+ "name" +:+ "}" +:+ ", not ${other}!")
  = "Hi " +:+ "${name}" +:+ ", not UNDEFINED_VAR_other!".
Proof.
  rewrite (interpolate_in_context {[ "name" := VStr "${name}" ]}
             "Hi " "name" ", not ${other}!");
    [vm_compute; reflexivity | reflexivity | discriminate | reflexivity].
Defined.

(* ===================================================================== *)
(** * Attribute dicts *)
(* ===================================================================== *)

(** X14.  A quoted attribute is parsed to its key and the text between
    the quotes, whatever that text is (blanks, commas and equals signs
    included), the empty text too. *)
Theorem quoted_attribute_parsed (key val : string) :
  key <> "" -> all_chars is_word key = true ->
  all_chars Re.not_dq val = true ->
  parse_attributes (key +:+ "=" +:+ quoted val) = [(key, val)].
Proof.
  intros Hk Hkw Hv.
  assert (Ha : Re.attr_at (key +:+ "=" +:+ quoted val)
               = Some (key, Some val, None,
                       String.length key + 3 + String.length val)).
  { unfold Re.attr_at.
    rewrite (span_app is_word key ("=" +:+ quoted val) Hkw eq_refl).
    destruct key as [|k ks]; [congruence|].
    unfold quoted. rewrite !app_cons, !app_empty.
    change (is_char "=" "=") with true. cbn iota.
    change (dq +:+ val +:+ dq) with (String dq_char (val +:+ dq)).
    change (is_char dq_char dq_char) with true. cbn iota.
    rewrite (span_app Re.not_dq val dq Hv eq_refl). reflexivity. }
  unfold parse_attributes.
  destruct key as [|k ks]; [congruence|].
  rewrite app_cons in *. cbn [String.eqb].
  unfold Re.findall_attr. cbn [Re.findall_attr_from]. rewrite Ha.
  rewrite findall_attr_from_skip; [reflexivity|].
  unfold quoted. rewrite !app_length. simpl. lia.
Qed.

Lemma quoted_attribute_parsed_witness :
  parse_attributes ("style" +:+ "=" +:+ quoted "a=b, c d")
  = [("style", "a=b, c d")].
Proof.
  apply (quoted_attribute_parsed "style" "a=b, c d");
    [discriminate | reflexivity | reflexivity].
Defined.

Lemma dict_get_set key k v d :
  dict_get key (dict_set k v d)
  = if String.eqb key k then Some v else dict_get key d.
Proof.
  induction d as [|[k' v'] d IH]; simpl.
  - destruct (String.eqb key k); reflexivity.
  - destruct (String.eqb_spec k k') as [->|Hkk]; simpl.
    + destruct (String.eqb key k'); reflexivity.
    + rewrite IH.
      destruct (String.eqb_spec key k') as [->|]; [|reflexivity].
      destruct (String.eqb_spec k' k); [congruence | reflexivity].
Qed.

Lemma dict_set_keys x k v d :
  In x (map fst (dict_set k v d)) -> x = k \/ In x (map fst d).
Proof.
  induction d as [|[k' v'] d IH]; simpl.
  - intros [<-|[]]. auto.
  - destruct (String.eqb_spec k k') as [->|]; simpl.
    + intros [<-|H]; auto.
    + intros [<-|H]; auto. destruct (IH H); auto.
Qed.

Lemma dict_set_NoDup k v d :
  NoDup (map fst d) -> NoDup (map fst (dict_set k v d)).
Proof.
  induction d as [|[k' v'] d IH]; simpl; intros H.
  - repeat constructor. intros Hin. inversion Hin.
  - apply NoDup_cons in H as [Hn Hd].
    destruct (String.eqb_spec k k') as [->|Hkk]; simpl.
    + apply NoDup_cons. auto.
    + apply NoDup_cons. split; [|auto].
      intros Hin. apply list_elem_of_In in Hin.
      destruct (dict_set_keys _ _ _ _ Hin) as [E|Hi]; [congruence|].
      apply Hn, list_elem_of_In, Hi.
Qed.

Lemma fold_dict_set key (l : list (string * string * string)) (d : dict) :
  dict_get key
    (fold_left (fun attributes '(k, val1, val2) => dict_set k val1 attributes)
       l d)
  = match last_value key l with
    | Some v => Some v
    | None => dict_get key d
    end.
Proof.
  revert d. induction l as [|[[k v1] v2] l IH]; intros d; [reflexivity|].
  simpl. rewrite IH. destruct (last_value key l); [reflexivity|].
  rewrite dict_get_set. destruct (String.eqb key k); reflexivity.
Qed.

Lemma fold_dict_set_NoDup (l : list (string * string * string)) (d : dict) :
  NoDup (map fst d) ->
  NoDup (map fst
    (fold_left (fun attributes '(k, val1, val2) => dict_set k val1 attributes)
       l d)).
Proof.
  revert d. induction l as [|[[k v1] v2] l IH]; intros d H; [exact H|].
  simpl. apply IH, dict_set_NoDup, H.
Qed.

(** X15.  In the dict built from an attribute list every key occurs
    once, and the value found under a key is that of the last occurrence
    of the key in the list: a repeated attribute overrides the earlier
    one. *)
Theorem parse_attributes_last_wins (attr_string key : string) :
  dict_get key (parse_attributes attr_string)
  = last_value key (Re.findall_attr attr_string)
  /\ NoDup (map fst (parse_attributes attr_string)).
Proof.
  unfold parse_attributes.
  destruct (String.eqb_spec attr_string "") as [->|_].
  - split; [reflexivity | constructor].
  - split.
    + rewrite fold_dict_set. destruct (last_value key _); reflexivity.
    + apply fold_dict_set_NoDup. constructor.
Qed.

(* ===================================================================== *)
(** * Comparisons in conditions *)
(* ===================================================================== *)

Lemma prefix_mismatch a p c s :
  Ascii.eqb a c = false -> String.prefix (String a p) (String c s) = false.
Proof.
  intros H. simpl. destruct (ascii_dec a c) as [->|]; [|reflexivity].
  rewrite Ascii.eqb_refl in H. discriminate.
Qed.

Lemma prefix_head a p s :
  String.prefix (String a p) (String a s) = String.prefix p s.
Proof. simpl. destruct (ascii_dec a a); [reflexivity | congruence]. Qed.

Lemma prefix_app p s : String.prefix p (p +:+ s) = true.
Proof.
  induction p as [|a p IH]; [destruct s; reflexivity|].
  rewrite app_cons. simpl. destruct (ascii_dec a a); [exact IH | congruence].
Qed.

Lemma substring_all s : String.substring 0 (String.length s) s = s.
Proof. induction s as [|c s IH]; simpl; [reflexivity | f_equal; exact IH]. Qed.

Lemma substring_skip a b :
  String.substring (String.length a) (String.length b) (a +:+ b) = b.
Proof.
  induction a as [|c a IH]; [rewrite app_empty; apply substring_all|].
  rewrite app_cons. simpl. exact IH.
Qed.

Lemma split_once_unfold sep s :
  split_once sep s
  = if String.prefix sep s
    then Some ("", String.substring (String.length sep)
                     (String.length s - String.length sep) s)
    else match s with
         | EmptyString => None
         | String c s' =>
             match split_once sep s' with
             | Some (a, b) => Some (String c a, b)
             | None => None
             end
         end.
Proof. destruct s; reflexivity. Qed.

Lemma contains_unfold sub s :
  contains sub s
  = String.prefix sub s
    || match s with
       | EmptyString => false
       | String _ s' => contains sub s'
       end.
Proof. destruct s; reflexivity. Qed.

Lemma no_char_head a c s :
  no_char a (String c s) = true -> Ascii.eqb a c = false /\ no_char a s = true.
Proof.
  unfold no_char. cbn [all_chars]. intros H.
  apply andb_prop in H as [Hc Hs]. split; [|exact Hs].
  apply negb_true_iff in Hc. exact Hc.
Qed.

(** Splitting at a separator whose first character does not occur in the
    text before it gives that text and the text after the separator. *)
Lemma split_once_found a p l r :
  no_char a l = true ->
  split_once (String a p) (l +:+ String a p +:+ r) = Some (l, r).
Proof.
  induction l as [|c l IH]; intros H.
  - rewrite app_empty, split_once_unfold, prefix_app.
    rewrite app_length.
    replace (String.length (String a p) + String.length r
             - String.length (String a p)) with (String.length r) by lia.
    rewrite substring_skip. reflexivity.
  - apply no_char_head in H as [Hc Hl].
    rewrite app_cons, split_once_unfold, (prefix_mismatch _ _ _ _ Hc).
    rewrite (IH Hl). reflexivity.
Qed.

Lemma contains_no_first a p s :
  no_char a s = true -> contains (String a p) s = false.
Proof.
  induction s as [|c s IH]; intros H; [reflexivity|].
  apply no_char_head in H as [Hc Hs].
  rewrite contains_unfold, (prefix_mismatch _ _ _ _ Hc), (IH Hs). reflexivity.
Qed.

Lemma no_double_equals l r :
  no_char "=" l = true -> no_char "=" r = true ->
  contains "==" (l +:+ "!=" +:+ r) = false.
Proof.
  intros Hl Hr. induction l as [|c l IH].
  - rewrite app_empty.
    change ("!=" +:+ r) with (String "!" (String "=" r)).
    rewrite contains_unfold, (prefix_mismatch "=" "=" "!" _ eq_refl).
    rewrite contains_unfold, (contains_no_first _ _ _ Hr).
    rewrite prefix_head.
    destruct r as [|d r]; [reflexivity|].
    apply no_char_head in Hr as [Hd _].
    rewrite (prefix_mismatch _ _ _ _ Hd). reflexivity.
  - apply no_char_head in Hl as [Hc Hl].
    rewrite app_cons, contains_unfold, (prefix_mismatch _ _ _ _ Hc), (IH Hl).
    reflexivity.
Qed.

(** X16.  For operands that hold no equals sign (and, on the left, no
    exclamation mark), an [==] condition compares the lower-cased text of
    the variable named on the left (the text None, lower-cased, when it
    is undefined) with the lower-cased right operand, quotes removed; the
    [!=] condition on the same operands is its negation. *)
Theorem inequality_negates_equality (vars : store) (l r : string) :
  no_char "=" l = true -> no_char "!" l = true -> no_char "=" r = true ->
  eval_condition vars (l +:+ "==" +:+ r)
  = String.eqb (left_operand vars (strip l)) (right_operand (strip r))
  /\ eval_condition vars (l +:+ "!=" +:+ r)
     = negb (eval_condition vars (l +:+ "==" +:+ r)).
Proof.
  intros Hl Hb Hr.
  assert (E : eval_condition vars (l +:+ "==" +:+ r)
              = String.eqb (left_operand vars (strip l))
                  (right_operand (strip r))).
  { unfold eval_condition. rewrite (split_once_found "=" "=" l r Hl).
    reflexivity. }
  split; [exact E|]. rewrite E. unfold eval_condition.
  rewrite (split_once_absent _ _ (no_double_equals l r Hl Hr)).
  rewrite (split_once_found "!" "=" l r Hb). reflexivity.
Qed.

Lemma inequality_negates_equality_witness :
  eval_condition {[ "user" := VStr "Bob" ]}
    ("user " +:+ "==" +:+ (" " +:+ quoted "BOB"))
  = String.eqb (left_operand {[ "user" := VStr "Bob" ]} (strip "user "))
      (right_operand (strip (" " +:+ quoted "BOB")))
  /\ eval_condition {[ "user" := VStr "Bob" ]}
       ("user " +:+ "!=" +:+ (" " +:+ quoted "BOB"))
     = negb (eval_condition {[ "user" := VStr "Bob" ]}
               ("user " +:+ "==" +:+ (" " +:+ quoted "BOB"))).
Proof.
  apply (inequality_negates_equality {[ "user" := VStr "Bob" ]}
           "user " (" " +:+ quoted "BOB")); reflexivity.
Defined.

(* ===================================================================== *)
(** * Setting a string and reading it back *)
(* ===================================================================== *)

Lemma app_assoc_string (a b c : string) : (a +:+ b) +:+ c = a +:+ b +:+ c.
Proof.
  induction a as [|x a IH]; [reflexivity|].
  rewrite !app_cons, IH. reflexivity.
Qed.

Lemma all_chars_app p a b :
  all_chars p (a +:+ b) = all_chars p a && all_chars p b.
Proof.
  induction a as [|x a IH]; [reflexivity|].
  rewrite app_cons. cbn [all_chars]. rewrite IH. apply andb_assoc.
Qed.

Lemma dot_star_semi_last a :
  all_chars Re.not_nl a = true -> Re.dot_star_semi (a +:+ ";") = Some a.
Proof.
  induction a as [|c a IH]; intros H; [reflexivity|].
  cbn [all_chars] in H. apply andb_prop in H as [Hc Ha].
  rewrite app_cons. cbn [Re.dot_star_semi]. rewrite Hc, (IH Ha). reflexivity.
Qed.

Lemma rstrip_by_keep p a c :
  p c = false -> rstrip_by p (a +:+ String c "") = a +:+ String c "".
Proof.
  intros H. induction a as [|x a IH].
  - rewrite app_empty. cbn [rstrip_by]. rewrite H. reflexivity.
  - rewrite app_cons. cbn [rstrip_by]. rewrite IH.
    destruct a; reflexivity.
Qed.

Lemma rstrip_by_drop p a c :
  p c = true -> all_chars (fun x => negb (p x)) a = true ->
  rstrip_by p (a +:+ String c "") = a.
Proof.
  intros H. induction a as [|x a IH]; intros Ha.
  - rewrite app_empty. cbn [rstrip_by]. rewrite H. reflexivity.
  - cbn [all_chars] in Ha. apply andb_prop in Ha as [Hx Ha].
    apply negb_true_iff in Hx.
    rewrite app_cons. cbn [rstrip_by]. rewrite (IH Ha).
    destruct a; [rewrite Hx|]; reflexivity.
Qed.

Lemma endswith_app suf a : endswith suf (a +:+ suf) = true.
Proof.
  induction a as [|x a IH].
  - rewrite app_empty. destruct suf; simpl; rewrite ?Ascii.eqb_refl,
      ?String.eqb_refl; reflexivity.
  - rewrite app_cons. cbn [endswith]. rewrite IH. apply orb_true_r.
Qed.

(** A quoted text has no white space to strip at its ends. *)
Lemma strip_quoted text : strip (quoted text) = quoted text.
Proof.
  unfold strip, strip_by, quoted.
  change (dq +:+ text +:+ dq) with (String dq_char text +:+ String dq_char "").
  rewrite (rstrip_by_keep is_space (String dq_char text) dq_char eq_refl).
  reflexivity.
Qed.

(** Removing the quotes at both ends of a quoted text that holds no
    quote gives the text back. *)
Lemma unquote_quoted text :
  all_chars Re.not_dq text = true ->
  strip_by (is_char dq_char) (quoted text) = text.
Proof.
  intros H. unfold strip_by, quoted.
  change (dq +:+ text +:+ dq) with (String dq_char (text +:+ String dq_char "")).
  cbn [rstrip_by].
  rewrite (rstrip_by_drop (is_char dq_char) text dq_char eq_refl H).
  destruct text as [|x t]; [reflexivity|].
  cbn [all_chars] in H. apply andb_prop in H as [Hx _].
  unfold Re.not_dq in Hx. apply negb_true_iff in Hx.
  unfold lstrip_by. cbn [span].
  change (is_char dq_char dq_char) with true. cbn iota. rewrite Hx.
  reflexivity.
Qed.

Lemma set_match_quoted name text :
  name <> "" -> all_chars is_word name = true ->
  all_chars Re.not_nl text = true ->
  Re.set_match (name +:+ " = " +:+ quoted text +:+ ";")
  = Some (name, quoted text).
Proof.
  intros Hne Hw Hnl. unfold Re.set_match.
  rewrite (span_app is_word name (" = " +:+ quoted text +:+ ";") Hw eq_refl).
  destruct name as [|c w]; [congruence|].
  change (lstrip (" = " +:+ quoted text +:+ ";"))
    with (String "=" (String " " (quoted text +:+ ";"))).
  change (is_char "=" "=") with true. cbn iota.
  assert (Hq : quoted text +:+ ";"
               = String dq_char ((text +:+ dq) +:+ ";")).
  { reflexivity. }
  rewrite Hq. cbn [Re.spaces_dot_plus_semi].
  change (is_space " ") with true. change (is_space dq_char) with false.
  cbn iota. unfold Re.dot_plus_semi.
  change (Re.not_nl dq_char) with true. cbn iota.
  rewrite dot_star_semi_last; [reflexivity|].
  rewrite all_chars_app, Hnl. reflexivity.
Qed.

(** X17.  Setting a name to a quoted text stores the text without its
    quotes, and a reference to the name is then replaced by exactly that
    text.  The text may hold anything but a quote or a line break,
    semicolons and references included. *)
Theorem set_string_then_interpolate (h : host) (line_no indent : nat)
    (trimmed_line name text : string) (st : interp) :
  name <> "" -> all_chars is_word name = true ->
  all_chars Re.not_dq text = true -> all_chars Re.not_nl text = true ->
  exists st',
    dispatch h line_no indent trimmed_line "set"
      (name +:+ " = " +:+ quoted text +:+ ";") st = Ok st'
    /\ variables st' = <[name := VStr text]> (variables st)
    /\ interpolate_variables (variables st') ("${" +:+ name +:+ "}") = text.
Proof.
  intros Hne Hw Hq Hnl.
  eexists. split.
  { change (dispatch h line_no indent trimmed_line "set"
              (name +:+ " = " +:+ quoted text +:+ ";") st)
      with (handle_set h (name +:+ " = " +:+ quoted text +:+ ";") st).
    unfold handle_set. rewrite (set_match_quoted name text Hne Hw Hnl).
    rewrite strip_quoted.
    replace (startswith dq (quoted text) && endswith dq (quoted text))
      with true.
    - rewrite (unquote_quoted text Hq). reflexivity.
    - symmetry. apply andb_true_iff. split.
      + unfold startswith, quoted. apply prefix_app.
      + unfold quoted.
        rewrite <- (app_assoc_string dq text dq). apply endswith_app. }
  split; [reflexivity|]. simpl.
  rewrite (interpolate_reference _ _ Hne Hw). unfold replace_var.
  rewrite lookup_insert_eq. reflexivity.
Qed.

Lemma set_string_then_interpolate_witness :
  exists st',
    dispatch plain_host 3 0 "set ..." "set"
      ("title" +:+ " = " +:+ quoted "a; b ${c}" +:+ ";")
      (initial_state banner) = Ok st'
    /\ variables st' = <["title" := VStr "a; b ${c}"]> ∅
    /\ interpolate_variables (variables st') ("${" +:+ "title" +:+ "}")
       = "a; b ${c}".
Proof.
  apply (set_string_then_interpolate plain_host 3 0 "set ..." "title"
           "a; b ${c}" (initial_state banner));
    [discriminate | reflexivity | reflexivity | reflexivity].
Defined.

(* ===================================================================== *)
(** * The final clean-up *)
(* ===================================================================== *)

Lemma lstrip_space s : lstrip (String " " s) = lstrip s.
Proof.
  unfold lstrip, lstrip_by. cbn [span].
  change (is_space " ") with true. cbn iota.
  destruct (span is_space s); reflexivity.
Qed.

Lemma lstrip_indent n s :
  lstrip (repeat_str "    " n +:+ String "<" s) = String "<" s.
Proof.
  induction n as [|n IH]; [reflexivity|].
  cbn [repeat_str]. rewrite app_assoc_string.
  rewrite !app_cons, app_empty, !lstrip_space. exact IH.
Qed.

Lemma final_loop_closes (frames : list frame) (st : interp) :
  Forall frame_ok frames ->
  exists st' added,
    final_loop frames st = Ok st'
    /\ block_stack st' = []
    /\ html_output_buffer st' = html_output_buffer st ++ added
    /\ map lstrip added = omap closing_tag frames.
Proof.
  intros Hok. revert st.
  induction Hok as [|f rest Hf Hrest IH]; intros st.
  - exists (set_block_stack [] st), []. repeat split.
    simpl. rewrite app_nil_r. reflexivity.
  - cbn [final_loop].
    assert (Hstep : exists st1 line,
      final_close_block f (set_block_stack rest st) = Ok st1
      /\ html_output_buffer st1 = html_output_buffer st ++ line
      /\ map lstrip line = omap closing_tag [f]).
    { assert (Htagged : forall tag, exists st1 line,
        Ok (set_block_stack rest st
              |> append_html_line ("</" +:+ tag +:+ ">") |> pop_tag_if tag)
        = Ok st1
        /\ html_output_buffer st1 = html_output_buffer st ++ line
        /\ map lstrip line = ["</" +:+ tag +:+ ">"]).
      { intros tag. eexists. eexists. split; [reflexivity|].
        destruct (pop_tag_if_fields tag
                    (append_html_line ("</" +:+ tag +:+ ">")
                       (set_block_stack rest st))) as (B & _).
        rewrite B. split; [reflexivity|].
        cbn [map]. unfold get_html_indent.
        change ("</" +:+ tag +:+ ">") with (String "<" ("/" +:+ tag +:+ ">")).
        rewrite lstrip_indent. reflexivity. }
      unfold final_close_block, frame_ok, close_tagged, close_div,
        closing_tag in *. cbn [omap list_omap].
      destruct (command_type f);
        try match type of Hf with
            | is_Some _ =>
                let tag := fresh "tag" in
                destruct Hf as [tag Htag]; rewrite Htag; apply Htagged
            end;
        try apply (Htagged "div");
        (exists (set_block_stack rest st), [];
         repeat split; simpl; rewrite app_nil_r; reflexivity). }
    destruct Hstep as (st1 & line & Hc & Hb & Hl).
    rewrite Hc. cbn [bind].
    destruct (IH st1) as (st' & added & Hf' & Hbs & Hb' & Hl').
    exists st', (line ++ added). split; [exact Hf'|].
    split; [exact Hbs|]. split.
    + rewrite Hb', Hb, app_assoc. reflexivity.
    + rewrite map_app, Hl, Hl'. cbn [omap list_omap].
      destruct (closing_tag f); reflexivity.
Qed.

(** X18.  At the end of the script the final clean-up empties the block
    stack and emits, innermost block first, exactly one closing tag for
    each open [section], [container], [list], [card], [card_body] and
    [card_footer] frame, and nothing for [page], [if] and [loop]
    frames. *)
Theorem final_cleanup_closes_each_block (st : interp) :
  Forall frame_ok (block_stack st) ->
  exists st' added,
    final_cleanup st = Ok st'
    /\ block_stack st' = []
    /\ html_output_buffer st' = html_output_buffer st ++ added
    /\ map lstrip added = omap closing_tag (block_stack st).
Proof. apply final_loop_closes. Qed.

Lemma final_cleanup_closes_each_block_witness :
  exists st' added,
    final_cleanup
      (initial_state banner
         |> push_block 0 BPage []
         |> push_block 4 BSection [("html_tag", "section")]
         |> push_block 8 BIf []
         |> push_block 12 BList [("html_tag", "ul")]) = Ok st'
    /\ block_stack st' = []
    /\ html_output_buffer st' = [] ++ added
    /\ map lstrip added = ["</ul>"; "</section>"].
Proof.
  apply (final_cleanup_closes_each_block
           (initial_state banner
              |> push_block 0 BPage []
              |> push_block 4 BSection [("html_tag", "section")]
              |> push_block 8 BIf []
              |> push_block 12 BList [("html_tag", "ul")])).
  repeat constructor; eexists; reflexivity.
Defined.
